(** * LinkedIn job description scraper: model and verified properties

    A shallow embedding of [src/utils/backend/scrapers/linkedin_scraper.py].

    - A Python [str] is a [string] whose characters are the code points
      U+0000..U+00FF (one [ascii] per code point); the character classes
      below are Python's on that range.
    - A posting record is a Python [dict] with string keys: a
      [gmap string pyval].  The list of jobs holds references to such
      dicts, so two entries may share one dict.
    - The network, the clock, the progress callback and the HTML parser
      are the environment; what they do is read off a trace of events.
    - An exception is an instance of Python's [Exception], the class that
      [except Exception] catches. *)

From Stdlib Require Import ZArith QArith Ascii String List Bool Lia.
From Stdlib Require Import Numbers.DecimalString Sorting.Sorted.
From stdpp Require Import base option gmap strings list.

(** ** Python strings *)

Module PyStr.

Definition code (c : ascii) : nat := nat_of_ascii c.

(** [\d] of the [re] module on [str] patterns: the decimal digits. *)
Definition is_digit (c : ascii) : bool :=
  (48 <=? code c)%nat && (code c <=? 57)%nat.

(** [str.isspace] for one character: TAB..CR, FS..US, SPACE, NEL, NBSP. *)
Definition is_space (c : ascii) : bool :=
  let n := code c in
  ((9 <=? n)%nat && (n <=? 13)%nat) || ((28 <=? n)%nat && (n <=? 32)%nat)
  || (n =? 133)%nat || (n =? 160)%nat.

(** [str.lower] for one character: A..Z and the capital letters
    U+00C0..U+00DE other than the multiplication sign U+00D7. *)
Definition lower_char (c : ascii) : ascii :=
  let n := code c in
  if ((65 <=? n)%nat && (n <=? 90)%nat)
     || ((192 <=? n)%nat && (n <=? 222)%nat && negb (n =? 215)%nat)
  then ascii_of_nat (n + 32) else c.

Fixpoint lower (s : string) : string :=
  match s with
  | EmptyString => EmptyString
  | String c r => String (lower_char c) (lower r)
  end.

Definition is_empty (s : string) : bool :=
  match s with EmptyString => true | _ => false end.

Fixpoint lstrip (s : string) : string :=
  match s with
  | EmptyString => EmptyString
  | String c r => if is_space c then lstrip r else s
  end.

Fixpoint rstrip (s : string) : string :=
  match s with
  | EmptyString => EmptyString
  | String c r =>
      let r' := rstrip r in
      if is_space c && is_empty r' then EmptyString else String c r'
  end.

(** [s.strip()] *)
Definition strip (s : string) : string := rstrip (lstrip s).

(** [s.split(sep)] for a one-character separator: empty pieces are kept. *)
Fixpoint split_on (sep : ascii) (s : string) : list string :=
  match s with
  | EmptyString => [EmptyString]
  | String c r =>
      if Ascii.eqb c sep then EmptyString :: split_on sep r
      else match split_on sep r with
           | piece :: pieces => String c piece :: pieces
           | [] => [String c EmptyString]
           end
  end.

(** [s.split()]: the maximal runs of non-whitespace characters. *)
Fixpoint split_ws (s : string) : list string :=
  match s with
  | EmptyString => []
  | String c r =>
      if is_space c then split_ws r
      else match r with
           | EmptyString => [String c EmptyString]
           | String c' _ =>
               if is_space c' then String c EmptyString :: split_ws r
               else match split_ws r with
                    | w :: ws => String c w :: ws
                    | [] => [String c EmptyString]
                    end
           end
  end.

(** [sep.join(pieces)] *)
Fixpoint join (sep : string) (pieces : list string) : string :=
  match pieces with
  | [] => EmptyString
  | [p] => p
  | p :: rest => p +:+ sep +:+ join sep rest
  end.

(** [str(n)] for a non-negative [int]. *)
Definition of_nat (n : nat) : string :=
  NilZero.string_of_uint (Nat.to_uint n).

(** [str(z)] for an [int]. *)
Definition of_Z (z : Z) : string :=
  NilZero.string_of_int (Z.to_int z).

End PyStr.

(** ** The regular expressions of [extract_linkedin_job_id]

    Each pattern is a literal prefix followed by the group [(\d+)].
    [re.search] reports the leftmost position where the pattern matches;
    the group is greedy, so it captures the whole run of digits. *)

Module Re.

Fixpoint strip_prefix (p s : string) : option string :=
  match p, s with
  | EmptyString, _ => Some s
  | String a p', String b s' =>
      if Ascii.eqb a b then strip_prefix p' s' else None
  | String _ _, EmptyString => None
  end.

Fixpoint take_digits (s : string) : string :=
  match s with
  | String c r => if PyStr.is_digit c then String c (take_digits r) else EmptyString
  | EmptyString => EmptyString
  end.

(** [re.match(prefix + r'(\d+)', s)]: the capture when the pattern matches
    at the start of [s]. *)
Definition match_here (prefix s : string) : option string :=
  match strip_prefix prefix s with
  | Some rest =>
      let d := take_digits rest in
      if PyStr.is_empty d then None else Some d
  | None => None
  end.

(** [re.search(prefix + r'(\d+)', s)], giving [match.group(1)]. *)
Fixpoint search (prefix s : string) : option string :=
  match match_here prefix s with
  | Some d => Some d
  | None =>
      match s with
      | EmptyString => None
      | String _ r => search prefix r
      end
  end.

End Re.

(** ** Python values, exceptions *)

(** The values a record may hold ([Dict[str, Any]]): [None], a [bool], an
    [int] or a [str]. *)
Inductive pyval :=
  | PNone
  | PBool (b : bool)
  | PInt (z : Z)
  | PStr (s : string).

(** Instances of Python's [Exception]: [requests.Timeout], any other
    [requests.RequestException], and every other exception class. *)
Inductive exn :=
  | RequestsTimeout (msg : string)
  | RequestsRequestException (msg : string)
  | OtherException (msg : string).

Definition exn_str (e : exn) : string :=
  match e with
  | RequestsTimeout m | RequestsRequestException m | OtherException m => m
  end.

Inductive outcome (A : Type) :=
  | Ret (a : A)
  | Raise (e : exn).
Arguments Ret {A} a.
Arguments Raise {A} e.

Definition AttributeError : exn := OtherException "AttributeError".
Definition TypeError : exn := OtherException "TypeError".
Definition IndexError : exn := OtherException "IndexError".

(** [bool(v)] *)
Definition truthy (v : pyval) : bool :=
  match v with
  | PNone => false
  | PBool b => b
  | PInt z => negb (z =? 0)%Z
  | PStr s => negb (PyStr.is_empty s)
  end.

(** [str(v)] *)
Definition py_str (v : pyval) : string :=
  match v with
  | PNone => "None"
  | PBool true => "True"
  | PBool false => "False"
  | PInt z => PyStr.of_Z z
  | PStr s => s
  end.

(** [a or b] *)
Definition py_or (a b : pyval) : pyval := if truthy a then a else b.

(** [d.get(key, '')] *)
Definition dict_get (d : gmap string pyval) (key : string) : pyval :=
  default (PStr "") (d !! key).

(** ** [extract_linkedin_job_id] *)

Definition patterns : list string :=
  [ "/jobs/view/"; "/jobs/"; "currentJobId="; "jobId=" ].

(** The [for pattern in patterns] loop: the capture of the first pattern
    that is found in the URL. *)
Fixpoint first_match (ps : list string) (url : string) : option string :=
  match ps with
  | [] => None
  | p :: ps' =>
      match Re.search p url with
      | Some job_id => Some job_id
      | None => first_match ps' url
      end
  end.

Definition extract_linkedin_job_id (job_url : pyval) : outcome (option string) :=
  if negb (truthy job_url) then Ret None
  else match job_url with
       | PStr url => Ret (first_match patterns url)
       | _ => Raise TypeError (* re.search on a value that is not a str *)
       end.

(** ** The HTML parser (BeautifulSoup with [html.parser])

    The parsed document is an object of the library; the code reaches it
    only through the methods below.  A [Tag] names one element of a
    document.  The methods that edit the tree return the edited document. *)
Class HtmlParser := {
  Soup : Type;
  Tag : Type;
  (** [BeautifulSoup(markup, 'html.parser')] *)
  BeautifulSoup : string -> outcome Soup;
  (** [soup.find_all(name)] *)
  find_all : Soup -> string -> list Tag;
  (** [tag.replace_with(text)] *)
  replace_with : Tag -> string -> Soup -> Soup;
  (** [tag.insert_before(text)] *)
  insert_before : Tag -> string -> Soup -> Soup;
  (** [tag.insert_after(text)] *)
  insert_after : Tag -> string -> Soup -> Soup;
  (** [soup.get_text()] *)
  get_text : Soup -> string;
  (** [soup.find(class_=name)] *)
  find_class : Soup -> string -> option Tag;
  (** [str(tag)]: the outer markup of an element *)
  tag_str : Soup -> Tag -> string;
}.

Section CleanHtml.
Context `{HtmlParser}.

(** U+2022 BULLET followed by a space: the text put before a list item.
    It is the one text of the program outside U+0000..U+00FF; its UTF-8
    bytes stand for it here, and only the parser ever receives it. *)
Definition bullet : string := "• ".

(** Lines 96-106: the three loops that edit the parsed tree. *)
Definition rewrite_breaks (soup : Soup) : Soup :=
  let soup := fold_left (fun s br => replace_with br (String "010" "") s)
                        (find_all soup "br") soup in
  let soup := fold_left (fun s li => insert_after li (String "010" "")
                                       (insert_before li bullet s))
                        (find_all soup "li") soup in
  fold_left (fun s p => insert_after p (String "010" "") s)
            (find_all soup "p") soup.

(** Lines 112-116: collapse the whitespace of every line, drop the lines
    left empty, join with newlines and strip. *)
Definition normalize_whitespace (text : string) : string :=
  let lines := PyStr.split_on "010" text in
  let cleaned_lines := map (fun line => PyStr.join " " (PyStr.split_ws line)) lines in
  let text := PyStr.join (String "010" "")
                (filter (fun line => negb (PyStr.is_empty line) = true) cleaned_lines) in
  PyStr.strip text.

Definition clean_html_text (html_content : string) : outcome string :=
  if PyStr.is_empty html_content then Ret ""
  else match BeautifulSoup html_content with
       | Raise e => Raise e
       | Ret soup =>
           let soup := rewrite_breaks soup in
           let text := get_text soup in
           Ret (normalize_whitespace text)
       end.

End CleanHtml.

(** ** Effects: the environment and the trace *)

Record response := { status_code : Z; text : string }.

(** The network, the clock and the constants of [scraper_config], which
    the code imports:
    - [guest_api_url job_id] is [LINKEDIN_GUEST_API_URL.format(job_id=job_id)];
    - [LINKEDIN_FETCH_DELAY] is a non-negative number of seconds;
    - [requests_get url] is [requests.get(url, headers=DEFAULT_HEADERS,
      timeout=LINKEDIN_REQUEST_TIMEOUT)]: a response or an exception. *)
Class Environment := {
  World : Type;
  guest_api_url : string -> string;
  LINKEDIN_FETCH_DELAY : Q;
  requests_get : string -> World -> outcome response * World;
  time_sleep : Q -> World -> World;
}.

Inductive level := DEBUG | INFO | WARNING | ERROR.

(** What a run does that can be seen from outside: log records, HTTP
    requests, calls of the fetcher and of the progress callback, sleeps. *)
Inductive event :=
  | Log (lv : level) (msg : string)
  | HttpGet (url : string)
  | FetchCall (job_id : string)
  | Progress (current total : nat)
  | Sleep (seconds : Q).

(** A computation over a state [S]: a value or an exception, the new
    state, and the events in the order they happened. *)
Definition M (S A : Type) : Type := S -> outcome A * S * list event.

Definition ret {S A} (a : A) : M S A := fun s => (Ret a, s, []).

Definition bind {S A B} (m : M S A) (k : A -> M S B) : M S B :=
  fun s =>
    match m s with
    | (Ret a, s', t) => let '(r, s'', t') := k a s' in (r, s'', (t ++ t')%list)
    | (Raise e, s', t) => (Raise e, s', t)
    end.

Notation "x <- m ;; k" := (bind m (fun x => k))
  (at level 100, m at next level, right associativity).
Notation "m ;;; k" := (bind m (fun _ => k))
  (at level 100, right associativity).

Definition emit {S} (e : event) : M S unit := fun s => (Ret tt, s, [e]).

Definition log {S} (lv : level) (msg : string) : M S unit := emit (Log lv msg).

Definition lift_outcome {S A} (o : outcome A) : M S A := fun s => (o, s, []).

(** [try: body except Exception as e: handler e] *)
Definition try_except {S A} (body : M S A) (handler : exn -> M S A) : M S A :=
  fun s =>
    match body s with
    | (Ret a, s', t) => (Ret a, s', t)
    | (Raise e, s', t) => let '(r, s'', t') := handler e s' in (r, s'', (t ++ t')%list)
    end.

(** ** [fetch_linkedin_description] *)

Section Fetch.
Context `{HtmlParser} `{Environment}.

Definition http_get (url : string) : M World response :=
  fun w => let '(r, w') := requests_get url w in (r, w', [HttpGet url]).

Definition fallback_selectors : list string :=
  [ "description__text"; "job-description"; "description" ].

(** The [for selector in fallback_selectors] loop: the first element found. *)
Fixpoint first_container (soup : Soup) (selectors : list string) : option Tag :=
  match selectors with
  | [] => None
  | selector :: rest =>
      match find_class soup selector with
      | Some desc_element => Some desc_element
      | None => first_container soup rest
      end
  end.

(** Lines 155-177: what is done with the body of a response. *)
Definition parse_description (job_id body : string) : M World (option string) :=
  soup <- lift_outcome (BeautifulSoup body) ;;
  match find_class soup "show-more-less-html__markup" with
  | Some description_div =>
      d <- lift_outcome (clean_html_text (tag_str soup description_div)) ;;
      ret (Some d)
  | None =>
      match first_container soup fallback_selectors with
      | Some desc_element =>
          d <- lift_outcome (clean_html_text (tag_str soup desc_element)) ;;
          ret (Some d)
      | None =>
          log DEBUG ("No description found in response for job " +:+ job_id) ;;;
          ret None
      end
  end.

(** Lines 137-177: the body of the [try]. *)
Definition fetch_body (job_id url : string) : M World (option string) :=
  response <- http_get url ;;
  if (status_code response =? 429)%Z then
    log WARNING ("Rate limited by LinkedIn for job " +:+ job_id) ;;;
    ret None
  else if (status_code response =? 404)%Z then
    log DEBUG ("Job " +:+ job_id +:+ " not found (may be expired or private)") ;;;
    ret None
  else if negb (status_code response =? 200)%Z then
    log WARNING ("Failed to fetch job " +:+ job_id +:+ ": HTTP "
                 +:+ PyStr.of_Z (status_code response)) ;;;
    ret None
  else parse_description job_id (text response).

(** Lines 179-187: the three [except] clauses, tried in order. *)
Definition fetch_handler (job_id : string) (e : exn) : M World (option string) :=
  match e with
  | RequestsTimeout _ =>
      log WARNING ("Timeout fetching description for job " +:+ job_id) ;;;
      ret None
  | RequestsRequestException _ =>
      log ERROR ("Request error for job " +:+ job_id +:+ ": " +:+ exn_str e) ;;;
      ret None
  | OtherException _ =>
      log ERROR ("Unexpected error fetching job " +:+ job_id +:+ ": " +:+ exn_str e) ;;;
      ret None
  end.

(** Every call is recorded in the trace as [FetchCall job_id]. *)
Definition fetch_linkedin_description (job_id : string) : M World (option string) :=
  emit (FetchCall job_id) ;;;
  if PyStr.is_empty job_id then ret None
  else
    let url := guest_api_url job_id in
    try_except (fetch_body job_id url) (fetch_handler job_id).

End Fetch.

(** ** [fetch_descriptions_for_jobs] *)

(** A reference to a dict object. *)
Definition loc := nat.

Section Batch.
Context `{HtmlParser} `{Environment}.

(** The dict objects the list of jobs refers to, and the world outside. *)
Record state := {
  heap : loc -> gmap string pyval;
  world : World;
}.

(** [progress_callback(current, total)]: it may raise, and acts on the
    world outside. *)
Definition callback : Type := nat -> nat -> World -> outcome unit * World.

Definition lift_world {A} (m : M World A) : M state A :=
  fun st =>
    let '(r, w', t) := m (world st) in
    (r, {| heap := heap st; world := w' |}, t).

(** [jobs[job_index]['description'] = description] *)
Definition set_description (jobs : list loc) (job_index : nat) (description : string)
  : M state unit :=
  fun st =>
    match jobs !! job_index with
    | Some l =>
        (Ret tt,
         {| heap := fun l' => if decide (l' = l)
                              then <["description" := PStr description]> (heap st l)
                              else heap st l';
            world := world st |},
         [])
    | None => (Raise IndexError, st, [])
    end.

Definition sleep (seconds : Q) : M state unit :=
  fun st =>
    (Ret tt, {| heap := heap st; world := time_sleep seconds (world st) |},
     [Sleep seconds]).

Definition call_callback (cb : callback) (current total : nat) : M state unit :=
  fun st =>
    let '(r, w') := cb current total (world st) in
    (r, {| heap := heap st; world := w' |}, [Progress current total]).

(** Line 213: [not description or description.strip() == ''] *)
Definition lacks_description (job : gmap string pyval) : outcome bool :=
  let description := dict_get job "description" in
  if negb (truthy description) then Ret true
  else match description with
       | PStr d => Ret (String.eqb (PyStr.strip d) "")
       | _ => Raise AttributeError (* no method strip *)
       end.

(** Line 214: [job.get('link', '') or job.get('job_url', '')] *)
Definition job_url_of (job : gmap string pyval) : pyval :=
  py_or (dict_get job "link") (dict_get job "job_url").

(** Lines 215-216: the identifier of a URL, kept when it is truthy. *)
Definition job_id_of (job_url : pyval) : outcome (option string) :=
  match extract_linkedin_job_id job_url with
  | Raise e => Raise e
  | Ret None => Ret None
  | Ret (Some job_id) =>
      if truthy (PStr job_id) then Ret (Some job_id) else Ret None
  end.

(** Lines 210-217 for one record: the identifier that is appended to
    [linkedin_jobs_to_fetch], if one is. *)
Definition job_target (job : gmap string pyval) : outcome (option string) :=
  let site := PyStr.lower (py_str (dict_get job "site")) in
  if String.eqb site "linkedin" then
    match lacks_description job with
    | Raise e => Raise e
    | Ret false => Ret None
    | Ret true => job_id_of (job_url_of job)
    end
  else Ret None.

(** Lines 208-217: [linkedin_jobs_to_fetch], scanning from index [i]. *)
Fixpoint scan_jobs (h : loc -> gmap string pyval) (i : nat) (jobs : list loc)
  : outcome (list (nat * string)) :=
  match jobs with
  | [] => Ret []
  | l :: rest =>
      match job_target (h l) with
      | Raise e => Raise e
      | Ret target =>
          match scan_jobs h (S i) rest with
          | Raise e => Raise e
          | Ret found =>
              Ret (match target with
                   | Some job_id => (i, job_id) :: found
                   | None => found
                   end)
          end
      end
  end.

Definition linkedin_jobs_to_fetch (jobs : list loc) : M state (list (nat * string)) :=
  fun st => (scan_jobs (heap st) 0 jobs, st, []).

(** Lines 230-234 *)
Definition report_progress (progress_callback : option callback) (current total : nat)
  : M state unit :=
  match progress_callback with
  | Some cb =>
      try_except (call_callback cb current total)
                 (fun e => log DEBUG ("Progress callback error: " +:+ exn_str e))
  | None => ret tt
  end.

(** Lines 229-248: one turn of the loop, from the counters before it to
    the counters after it. *)
Definition process_job (jobs : list loc) (progress_callback : option callback)
    (total idx job_index : nat) (job_id : string) (counts : nat * nat)
  : M state (nat * nat) :=
  let '(fetched_count, failed_count) := counts in
  report_progress progress_callback (idx + 1)%nat total ;;;
  description <- lift_world (fetch_linkedin_description job_id) ;;
  counts' <- match description with
             | Some d =>
                 if negb (PyStr.is_empty d) then
                   set_description jobs job_index d ;;;
                   log DEBUG ("Fetched description for job " +:+ job_id +:+ " ("
                              +:+ PyStr.of_nat (String.length d) +:+ " chars)") ;;;
                   ret ((fetched_count + 1)%nat, failed_count)
                 else ret (fetched_count, (failed_count + 1)%nat)
             | None => ret (fetched_count, (failed_count + 1)%nat)
             end ;;
  (if (idx <? total - 1)%nat then sleep LINKEDIN_FETCH_DELAY else ret tt) ;;;
  ret counts'.

(** The [for idx, (job_index, job_id) in enumerate(...)] loop, from
    position [idx] on. *)
Fixpoint enrich_loop (jobs : list loc) (progress_callback : option callback)
    (total idx : nat) (to_fetch : list (nat * string)) (counts : nat * nat)
  : M state (nat * nat) :=
  match to_fetch with
  | [] => ret counts
  | (job_index, job_id) :: rest =>
      counts' <- process_job jobs progress_callback total idx job_index job_id counts ;;
      enrich_loop jobs progress_callback total (S idx) rest counts'
  end.

Definition summary (fetched_count failed_count total : nat) : string :=
  "LinkedIn descriptions: " +:+ PyStr.of_nat fetched_count +:+ " fetched, "
  +:+ PyStr.of_nat failed_count +:+ " failed out of " +:+ PyStr.of_nat total
  +:+ " total".

Definition fetch_descriptions_for_jobs (jobs : list loc)
    (progress_callback : option callback) : M state (list loc) :=
  to_fetch <- linkedin_jobs_to_fetch jobs ;;
  match to_fetch with
  | [] =>
      log INFO "No LinkedIn jobs need description fetching" ;;;
      ret jobs
  | _ :: _ =>
      let total := length to_fetch in
      log INFO ("Fetching descriptions for " +:+ PyStr.of_nat total
                +:+ " LinkedIn jobs...") ;;;
      counts <- enrich_loop jobs progress_callback total 0 to_fetch (0, 0) ;;
      log INFO (summary (fst counts) (snd counts) total) ;;;
      ret jobs
  end.

End Batch.

(** * Specification

    What the documentation says, stated over the model. *)

(** ** The patterns, read as a specification

    [pattern_at prefix s d]: the pattern [prefix(\d+)] matches at the
    start of [s] and its group captures [d], the longest run of digits.
    [pattern_capture prefix url d]: the leftmost match of the pattern in
    [url] captures [d]. *)

Fixpoint all_digits (s : string) : bool :=
  match s with
  | EmptyString => true
  | String c r => PyStr.is_digit c && all_digits r
  end.

Definition starts_with_digit (s : string) : bool :=
  match s with
  | String c _ => PyStr.is_digit c
  | EmptyString => false
  end.

Definition pattern_at (prefix s d : string) : Prop :=
  exists after, s = prefix +:+ d +:+ after /\ d <> "" /\ all_digits d = true
                /\ starts_with_digit after = false.

Definition found_at (prefix s : string) : Prop :=
  exists c rest, s = prefix +:+ String c rest /\ PyStr.is_digit c = true.

Definition pattern_found (prefix url : string) : Prop :=
  exists before s, url = before +:+ s /\ found_at prefix s.

Definition pattern_capture (prefix url d : string) : Prop :=
  exists before s,
    url = before +:+ s /\ pattern_at prefix s d
    /\ forall before' s', url = before' +:+ s' -> found_at prefix s' ->
                          String.length before <= String.length before'.

(** ** Plain text

    A string is plain text for the parser when its document has no [br],
    [li] or [p] element and its text is the string itself. *)

Definition plain_text `{HtmlParser} (s : string) : Prop :=
  exists soup, BeautifulSoup s = Ret soup
               /\ find_all soup "br" = [] /\ find_all soup "li" = []
               /\ find_all soup "p" = [] /\ get_text soup = s.

Fixpoint no_space (s : string) : bool :=
  match s with
  | EmptyString => true
  | String c r => negb (PyStr.is_space c) && no_space r
  end.

(** A word: a non-empty string without whitespace. *)
Definition word (w : string) : Prop := w <> "" /\ no_space w = true.

(** A string without leading or trailing whitespace, and not empty. *)
Definition tidy (s : string) : Prop :=
  s <> "" /\ PyStr.lstrip s = s /\ PyStr.rstrip s = s.

Fixpoint no_newline (s : string) : bool :=
  match s with
  | EmptyString => true
  | String c r => negb (Ascii.eqb c "010") && no_newline r
  end.

(** A line as [normalize_whitespace] leaves it: words separated by single
    spaces. *)
Definition clean_line (l : string) : Prop :=
  exists ws, ws <> [] /\ Forall word ws /\ l = PyStr.join " " ws.

(** The lines [normalize_whitespace] keeps, before they are joined. *)
Definition kept_lines (text : string) : list string :=
  filter (fun line => negb (PyStr.is_empty line) = true)
         (map (fun line => PyStr.join " " (PyStr.split_ws line))
              (PyStr.split_on "010" text)).

(** ** Responses *)

(** A status of the 2xx range. *)
Definition is_2xx (status : Z) : bool := (200 <=? status)%Z && (status <=? 299)%Z.

Definition primary_container : string := "show-more-less-html__markup".

(** The value a computation leaves. *)
Definition result_of {S A} (r : outcome A * S * list event) : outcome A := fst (fst r).

(** The events of a computation. *)
Definition events_of {S A} (r : outcome A * S * list event) : list event := snd r.

(** The state a computation leaves. *)
Definition state_of {S A} (r : outcome A * S * list event) : S := snd (fst r).

(** ** Posting records and the targeting rule *)

(** A field that holds text or nothing: it is absent, [None] or a [str]. *)
Definition is_text_field (job : gmap string pyval) (key : string) : bool :=
  match job !! key with
  | None | Some PNone | Some (PStr _) => true
  | Some _ => false
  end.

(** A posting record: [site], [description], [link] and [job_url] hold
    text or nothing. *)
Definition posting_record (job : gmap string pyval) : Prop :=
  is_text_field job "site" = true /\ is_text_field job "description" = true
  /\ is_text_field job "link" = true /\ is_text_field job "job_url" = true.

(** The text of a field, empty when the field holds nothing. *)
Definition field_text (job : gmap string pyval) (key : string) : string :=
  match job !! key with
  | Some (PStr s) => s
  | _ => ""
  end.

(** The site names the target source, whatever the case of its letters. *)
Definition site_is_linkedin (job : gmap string pyval) : bool :=
  String.eqb (PyStr.lower (field_text job "site")) "linkedin".

(** The description is empty or whitespace only. *)
Definition description_is_blank (job : gmap string pyval) : bool :=
  PyStr.is_empty (PyStr.strip (field_text job "description")).

(** The URL field: [link], or [job_url] when [link] is absent or empty. *)
Definition url_field (job : gmap string pyval) : string :=
  if PyStr.is_empty (field_text job "link") then field_text job "job_url"
  else field_text job "link".

(** The identifier the URL field yields, if any. *)
Definition identifier (job : gmap string pyval) : option string :=
  match extract_linkedin_job_id (PStr (url_field job)) with
  | Ret (Some job_id) => Some job_id
  | _ => None
  end.

(** The targeting rule: all three conditions hold. *)
Definition targeted (job : gmap string pyval) : option string :=
  if site_is_linkedin job && description_is_blank job then identifier job else None.

(** The targeted records of a list, with their positions counted from [i],
    in the order of the list. *)
Fixpoint targets (h : loc -> gmap string pyval) (i : nat) (jobs : list loc)
  : list (nat * string) :=
  match jobs with
  | [] => []
  | l :: rest =>
      match targeted (h l) with
      | Some job_id => (i, job_id) :: targets h (S i) rest
      | None => targets h (S i) rest
      end
  end.

(** ** Reading a trace *)

Definition fetch_calls (t : list event) : list string :=
  omap (fun e => match e with FetchCall job_id => Some job_id | _ => None end) t.

Definition progress_calls (t : list event) : list (nat * nat) :=
  omap (fun e => match e with Progress c n => Some (c, n) | _ => None end) t.

Definition sleeps (t : list event) : list Q :=
  omap (fun e => match e with Sleep d => Some d | _ => None end) t.

(** The calls of the fetcher and the sleeps, in the order they happened. *)
Definition pace (t : list event) : list event :=
  omap (fun e => match e with FetchCall _ | Sleep _ => Some e | _ => None end) t.

(** A call of the fetcher for each identifier, and a sleep of [delay]
    seconds between two calls. *)
Fixpoint paced (delay : Q) (ids : list string) : list event :=
  match ids with
  | [] => []
  | [job_id] => [FetchCall job_id]
  | job_id :: rest => FetchCall job_id :: Sleep delay :: paced delay rest
  end.

(** The progress reports of a batch of [total] items, from position [idx]
    (counted from 0) on, for [n] items. *)
Fixpoint reports (total idx n : nat) : list (nat * nat) :=
  match n with
  | 0 => []
  | S n' => (idx + 1, total) :: reports total (S idx) n'
  end.

(** An event of the fetcher other than its call: a request or a log record. *)
Definition is_io (e : event) : bool :=
  match e with
  | HttpGet _ | Log _ _ => true
  | _ => false
  end.

(** A computation whose events are requests and log records only. *)
Definition quiet {S A} (m : M S A) : Prop :=
  forall s, forallb is_io (events_of (m s)) = true.

(** The heap after [description] is stored in the dict at [l]. *)
Definition stored (h : loc -> gmap string pyval) (l : loc) (description : string)
  : loc -> gmap string pyval :=
  fun l' => if decide (l' = l) then <["description" := PStr description]> (h l) else h l'.

(** No result, or an empty description. *)
Definition no_description (r : option string) : Prop := r = None \/ r = Some "".

(** ** Further reading of results and traces *)

(** [d] occurs in [url]. *)
Definition occurs_in (d url : string) : Prop :=
  exists before after, url = before +:+ d +:+ after.

(** A text as [clean_html_text] returns it: stripping changes nothing,
    and it is empty or made of clean lines. *)
Definition normalized (text : string) : Prop :=
  PyStr.strip text = text
  /\ (text = "" \/ Forall clean_line (PyStr.split_on "010" text)).

(** The URLs requested, in order. *)
Definition http_gets (t : list event) : list string :=
  omap (fun e => match e with HttpGet url => Some url | _ => None end) t.

Definition is_log (e : event) : bool :=
  match e with
  | Log _ _ => true
  | _ => false
  end.

(** A computation whose events are log records only. *)
Definition logs_only {S A} (m : M S A) : Prop :=
  forall s, forallb is_log (events_of (m s)) = true.

(** ** Lines and their words *)

Fixpoint all_space (s : string) : bool :=
  match s with
  | EmptyString => true
  | String c r => PyStr.is_space c && all_space r
  end.

(** The words of each line of a text that holds a word, line by line. *)
Definition line_words (text : string) : list (list string) :=
  filter (fun ws => ws <> []) (map PyStr.split_ws (PyStr.split_on "010" text)).

(** The text whose lines are the given words, separated by single spaces. *)
Definition render (lines : list (list string)) : string :=
  PyStr.join (String "010" "") (map (PyStr.join " ") lines).

(** ** Test doubles

    A parser, a network and three records to run the code on. *)

Module Double.

Definition dq : string := String "034" "".

(** The outer markup of the description container of [page]. *)
Definition container : string :=
  "<div class=" +:+ dq +:+ "show-more-less-html__markup" +:+ dq +:+ ">Hi</div>".

Definition page : string :=
  "<html><body><div class='show-more-less-html__markup'>Hi</div></body></html>".

(** A page whose description container holds a single space. *)
Definition blank_container : string :=
  "<div class=" +:+ dq +:+ "show-more-less-html__markup" +:+ dq +:+ "> </div>".

Definition blank_page : string :=
  "<html><body><div class='show-more-less-html__markup'> </div></body></html>".

(** A parsed document: its text, and the elements that carry a class,
    each with its outer markup. *)
Record doc := { doc_text : string; doc_classes : list (string * string) }.

(** A parser that knows [page], [blank_page] and their containers; any
    other input is read as text without markup, which is how
    [html.parser] reads a string without [<] and [&]. *)
Definition parser : HtmlParser := {|
  Soup := doc;
  Tag := string;
  BeautifulSoup markup :=
    if String.eqb markup page || String.eqb markup container
    then Ret {| doc_text := "Hi";
                doc_classes := [("show-more-less-html__markup", container)] |}
    else if String.eqb markup blank_page || String.eqb markup blank_container
    then Ret {| doc_text := " ";
                doc_classes := [("show-more-less-html__markup", blank_container)] |}
    else Ret {| doc_text := markup; doc_classes := [] |};
  find_all _ _ := [];
  replace_with _ _ soup := soup;
  insert_before _ _ soup := soup;
  insert_after _ _ soup := soup;
  get_text := doc_text;
  find_class soup name :=
    snd <$> List.find (fun entry => String.eqb (fst entry) name) (doc_classes soup);
  tag_str _ tag := tag;
|}.

(** A network that answers every request with [status] and [body]; the
    world counts the seconds slept. *)
Definition net (status : Z) (body : string) : Environment := {|
  World := Q;
  guest_api_url job_id := "https://www.linkedin.com/jobs-guest/jobs/api/jobPosting/" +:+ job_id;
  LINKEDIN_FETCH_DELAY := 1.5%Q;
  requests_get _ w := (Ret {| status_code := status; text := body |}, w);
  time_sleep seconds w := Qred (w + seconds)%Q;
|}.

(** A network whose every request times out. *)
Definition down : Environment := {|
  World := Q;
  guest_api_url job_id := "https://www.linkedin.com/jobs-guest/jobs/api/jobPosting/" +:+ job_id;
  LINKEDIN_FETCH_DELAY := 1.5%Q;
  requests_get _ w := (Raise (RequestsTimeout "timed out"), w);
  time_sleep seconds w := Qred (w + seconds)%Q;
|}.

Definition record_A : gmap string pyval :=
  <["site" := PStr "linkedin"]>
  (<["description" := PStr ""]>
  (<["job_url" := PStr "https://www.linkedin.com/jobs/view/1234567890/"]> ∅)).

Definition record_B : gmap string pyval :=
  <["site" := PStr "LinkedIn"]>
  (<["description" := PStr "Build things."]>
  (<["job_url" := PStr "https://www.linkedin.com/jobs/view/222"]> ∅)).

Definition record_C : gmap string pyval :=
  <["site" := PStr "indeed"]>
  (<["description" := PStr ""]>
  (<["job_url" := PStr "https://www.indeed.com/viewjob?jk=abc"]> ∅)).

Definition record_D : gmap string pyval :=
  <["site" := PStr "LINKEDIN"]>
  (<["description" := PStr "  "]>
  (<["link" := PStr "https://www.linkedin.com/jobs/search/?currentJobId=987&x=1"]>
  (<["job_url" := PStr "https://www.linkedin.com/jobs/view/555"]> ∅))).

Definition objects (l : loc) : gmap string pyval :=
  match l with
  | 0 => record_A
  | 1 => record_B
  | 2 => record_C
  | 3 => record_D
  | _ => ∅
  end.

Definition start (E : Environment) (w : World) : state := {| heap := objects; world := w |}.

(** A callback that always raises. *)
Definition failing_callback : nat -> nat -> Q -> outcome unit * Q :=
  fun _ _ w => (Raise (OtherException "boom"), w).

End Double.

(** ** A page of the older layout

    The description sits in an element of class [job-description]; the
    page has no element of the primary class. *)

Module OlderLayout.

Definition container : string :=
  "<section class=" +:+ Double.dq +:+ "job-description" +:+ Double.dq
  +:+ ">We  build   things.</section>".

Definition page : string :=
  "<html><body><section class='job-description'>We  build   things.</section></body></html>".

(** A parser that knows [page] and [container]; any other input is read
    as text without markup. *)
Definition parser : HtmlParser := {|
  Soup := Double.doc;
  Tag := string;
  BeautifulSoup markup :=
    if String.eqb markup page || String.eqb markup container
    then Ret {| Double.doc_text := "We  build   things.";
                Double.doc_classes := [("job-description", container)] |}
    else Ret {| Double.doc_text := markup; Double.doc_classes := [] |};
  find_all _ _ := [];
  replace_with _ _ soup := soup;
  insert_before _ _ soup := soup;
  insert_after _ _ soup := soup;
  get_text := Double.doc_text;
  find_class soup name :=
    snd <$> List.find (fun entry => String.eqb (fst entry) name)
                      (Double.doc_classes soup);
  tag_str _ tag := tag;
|}.

End OlderLayout.

(** ** A list with a malformed record

    The second dict holds a number where the description should be. *)

Module Malformed.

Definition record_E : gmap string pyval :=
  <["site" := PStr "LinkedIn"]>
  (<["description" := PInt 5]>
  (<["job_url" := PStr "https://www.linkedin.com/jobs/view/777"]> ∅)).

Definition objects (l : loc) : gmap string pyval :=
  match l with
  | 0 => Double.record_A
  | _ => record_E
  end.

Definition start (E : Environment) (w : World) : state :=
  {| heap := objects; world := w |}.

End Malformed.

(** ** A text with an ampersand

    [html.parser] reads [AT&T] as the text [ATT]: the document has no
    element, and its text is not the string that was parsed. *)

Module Ampersand.

Definition parser : HtmlParser := {|
  Soup := Double.doc;
  Tag := string;
  BeautifulSoup markup :=
    if String.eqb markup "AT&T"
    then Ret {| Double.doc_text := "ATT"; Double.doc_classes := [] |}
    else Ret {| Double.doc_text := markup; Double.doc_classes := [] |};
  find_all _ _ := [];
  replace_with _ _ soup := soup;
  insert_before _ _ soup := soup;
  insert_after _ _ soup := soup;
  get_text := Double.doc_text;
  find_class _ _ := None;
  tag_str _ tag := tag;
|}.

End Ampersand.

(** * Properties *)

Example of_nat_ex : PyStr.of_nat 0 = "0" /\ PyStr.of_nat 120 = "120" /\ PyStr.of_Z (-45) = "-45".
Proof. repeat split; reflexivity. Qed.


(** ** Strings *)

Lemma app_cons (a : ascii) (s t : string) : String a s +:+ t = String a (s +:+ t).
Proof. reflexivity. Qed.

Lemma app_empty_l (s : string) : "" +:+ s = s.
Proof. reflexivity. Qed.

Lemma app_empty_r (s : string) : s +:+ "" = s.
Proof. induction s as [|a s IH]; [reflexivity|]. rewrite app_cons. by f_equal. Qed.

Lemma app_assoc_str (s t u : string) : (s +:+ t) +:+ u = s +:+ (t +:+ u).
Proof.
  induction s as [|a s IH]; [reflexivity|].
  rewrite !app_cons. by f_equal.
Qed.

Lemma app_length_str (s t : string) :
  String.length (s +:+ t) = String.length s + String.length t.
Proof.
  induction s as [|a s IH]; [reflexivity|].
  rewrite app_cons. simpl. by rewrite IH.
Qed.

Lemma is_empty_true (s : string) : PyStr.is_empty s = true <-> s = "".
Proof. destruct s; simpl; split; congruence. Qed.

Lemma is_empty_false (s : string) : PyStr.is_empty s = false <-> s <> "".
Proof. destruct s; simpl; split; congruence. Qed.

Lemma strip_prefix_spec (p s r : string) :
  Re.strip_prefix p s = Some r <-> s = p +:+ r.
Proof.
  revert s. induction p as [|a p IH]; intros s; simpl.
  - rewrite ?app_empty_l. split; congruence.
  - destruct s as [|b s]; rewrite ?app_cons.
    + split; congruence.
    + destruct (Ascii.eqb_spec a b) as [->|Hne].
      * rewrite IH. split; congruence.
      * split; congruence.
Qed.

Lemma take_digits_split (s : string) :
  exists rest, s = Re.take_digits s +:+ rest
               /\ all_digits (Re.take_digits s) = true
               /\ starts_with_digit rest = false.
Proof.
  induction s as [|c s (rest & Hs & Hd & Hr)]; simpl.
  - by exists "".
  - destruct (PyStr.is_digit c) eqn:Hc.
    + exists rest. rewrite ?app_cons. simpl. rewrite Hc. split_and!; [by f_equal|done..].
    + exists (String c s). simpl. by rewrite Hc.
Qed.

Lemma take_digits_unique (d after : string) :
  all_digits d = true -> starts_with_digit after = false ->
  Re.take_digits (d +:+ after) = d.
Proof.
  induction d as [|c d IH]; simpl; intros Hd Ha.
  - rewrite ?app_empty_l. destruct after as [|c r]; simpl in *; [done|]. by rewrite Ha.
  - apply andb_true_iff in Hd as [Hc Hd]. rewrite ?app_cons. simpl.
    rewrite Hc. f_equal. by apply IH.
Qed.

Lemma match_here_Some (p s d : string) :
  Re.match_here p s = Some d <-> pattern_at p s d.
Proof.
  unfold Re.match_here, pattern_at. split.
  - destruct (Re.strip_prefix p s) as [rest|] eqn:Hp; [|done].
    apply strip_prefix_spec in Hp as ->.
    destruct (PyStr.is_empty (Re.take_digits rest)) eqn:He; [done|].
    intros [= <-]. destruct (take_digits_split rest) as (after & Hs & Hd & Ha).
    exists after. split_and!; [by rewrite <- Hs | by apply is_empty_false | done..].
  - intros (after & -> & Hne & Hd & Ha).
    assert (Re.strip_prefix p (p +:+ d +:+ after) = Some (d +:+ after)) as ->
      by by apply strip_prefix_spec.
    rewrite take_digits_unique by done.
    apply is_empty_false in Hne. by rewrite Hne.
Qed.

Lemma match_here_None (p s : string) :
  Re.match_here p s = None <-> ~ found_at p s.
Proof.
  unfold Re.match_here, found_at. split.
  - intros Hm (c & rest & -> & Hc).
    assert (Re.strip_prefix p (p +:+ String c rest) = Some (String c rest)) as Hp
      by by apply strip_prefix_spec.
    rewrite Hp in Hm. simpl in Hm. by rewrite Hc in Hm.
  - intros Hn. destruct (Re.strip_prefix p s) as [rest|] eqn:Hp; [|done].
    apply strip_prefix_spec in Hp as ->.
    destruct rest as [|c rest]; [done|]. simpl.
    destruct (PyStr.is_digit c) eqn:Hc; [|done].
    exfalso. apply Hn. by exists c, rest.
Qed.

Lemma pattern_at_found (p s d : string) : pattern_at p s d -> found_at p s.
Proof.
  intros (after & -> & Hne & Hd & _). destruct d as [|c d]; [done|].
  simpl in Hd. apply andb_true_iff in Hd as [Hc _].
  exists c, (d +:+ after). by rewrite ?app_cons.
Qed.

Lemma search_None (p url : string) :
  Re.search p url = None <-> ~ pattern_found p url.
Proof.
  induction url as [|c url IH].
  - simpl. destruct (Re.match_here p "") as [d|] eqn:Hm.
    + split; [done|]. intros Hn. exfalso. apply Hn.
      exists "", "". split; [done|]. eapply pattern_at_found. by apply match_here_Some.
    + split; [|done]. intros _ (before & s & Hs & Hf).
      destruct before; [|done]. rewrite ?app_empty_l in Hs. subst s.
      by apply match_here_None in Hm.
  - cbn [Re.search]. destruct (Re.match_here p (String c url)) as [d|] eqn:Hm.
    + split; [done|]. intros Hn. exfalso. apply Hn.
      exists "", (String c url). split; [done|].
      eapply pattern_at_found. by apply match_here_Some.
    + rewrite IH. apply match_here_None in Hm. split.
      * intros Hn (before & s & Hs & Hf). destruct before as [|b before].
        -- rewrite ?app_empty_l in Hs. by subst s.
        -- rewrite ?app_cons in Hs. injection Hs as -> ->. apply Hn. by exists before, s.
      * intros Hn (before & s & -> & Hf). apply Hn.
        exists (String c before), s. by rewrite ?app_cons.
Qed.

Lemma search_Some (p url d : string) :
  Re.search p url = Some d <-> pattern_capture p url d.
Proof.
  revert d. induction url as [|c url IH]; intros d.
  - simpl. destruct (Re.match_here p "") as [d'|] eqn:Hm.
    + split.
      * intros [= <-]. exists "", "". split_and!; [done|by apply match_here_Some|].
        intros before' s' _ _. simpl. lia.
      * intros (before & s & Hs & Hat & _). destruct before; [|done].
        rewrite ?app_empty_l in Hs. subst s. apply match_here_Some in Hat. congruence.
    + split; [done|]. intros (before & s & Hs & Hat & _). destruct before; [|done].
      rewrite ?app_empty_l in Hs. subst s. apply match_here_Some in Hat. congruence.
  - cbn [Re.search]. destruct (Re.match_here p (String c url)) as [d'|] eqn:Hm.
    + split.
      * intros [= <-]. exists "", (String c url).
        split_and!; [done|by apply match_here_Some|]. intros; simpl; lia.
      * intros (before & s & Hs & Hat & Hleft).
        assert (String.length before <= String.length "") as Hlen.
        { apply (Hleft "" (String c url)); [done|].
          eapply pattern_at_found. by apply match_here_Some. }
        destruct before; [|simpl in Hlen; lia].
        rewrite ?app_empty_l in Hs. subst s. apply match_here_Some in Hat. congruence.
    + rewrite IH. apply match_here_None in Hm. split.
      * intros (before & s & -> & Hat & Hleft).
        exists (String c before), s. split_and!; [by rewrite ?app_cons|done|].
        intros before' s' Hs' Hf. destruct before' as [|b before'].
        -- rewrite ?app_empty_l in Hs'. by subst s'.
        -- rewrite ?app_cons in Hs'. injection Hs' as -> Hs'. simpl.
           apply le_n_S. by apply (Hleft before' s').
      * intros (before & s & Hs & Hat & Hleft). destruct before as [|b before].
        -- rewrite ?app_empty_l in Hs. subst s. by apply pattern_at_found in Hat.
        -- rewrite ?app_cons in Hs. injection Hs as -> Hs. subst url.
           exists before, s. split_and!; [done..|].
           intros before' s' Hs' Hf.
           assert (String.length (String b before) <= String.length (String b before')) as Hlen.
           { apply (Hleft (String b before') s'); [|done]. rewrite app_cons. by f_equal. }
           simpl in Hlen. lia.
Qed.

Lemma first_match_spec (ps : list string) (url : string) :
  match first_match ps url with
  | Some d =>
      exists k p, ps !! k = Some p /\ pattern_capture p url d
                  /\ forall j q, j < k -> ps !! j = Some q -> ~ pattern_found q url
  | None => forall p, p ∈ ps -> ~ pattern_found p url
  end.
Proof.
  induction ps as [|p ps IH]; simpl.
  - intros p Hp. by apply elem_of_nil in Hp.
  - destruct (Re.search p url) as [d|] eqn:Hs.
    + exists 0, p. split_and!; [done|by apply search_Some|]. intros; lia.
    + apply search_None in Hs. destruct (first_match ps url) as [d|].
      * destruct IH as (k & q & Hk & Hcap & Hearlier).
        exists (S k), q. split_and!; [done..|].
        intros [|j] q' Hj Hq'; simpl in Hq'.
        -- by injection Hq' as <-.
        -- apply (Hearlier j); [lia|done].
      * intros q [->|Hq]%elem_of_cons; [done|by apply IH].
Qed.

Lemma extract_is_first_match (url : string) :
  extract_linkedin_job_id (PStr url) = Ret (first_match patterns url).
Proof. by destruct url. Qed.

(** C2: for every URL string, [extract_linkedin_job_id] returns a result
    and never raises; the result is the capture of the leftmost match of
    the first of the four patterns [/jobs/view/(\d+)], [/jobs/(\d+)],
    [currentJobId=(\d+)], [jobId=(\d+)], taken in this order, that is
    found in the URL, and no result when the URL is empty or none of them
    is found.  A URL in which both the first and the third pattern are
    found gives the capture of the first. *)
Theorem extract_linkedin_job_id_first_pattern_wins (url : string) :
  exists r,
    extract_linkedin_job_id (PStr url) = Ret r
    /\ (url = "" -> r = None)
    /\ match r with
       | Some d =>
           exists k p,
             [ "/jobs/view/"; "/jobs/"; "currentJobId="; "jobId=" ] !! k = Some p
             /\ pattern_capture p url d
             /\ forall j q, j < k ->
                  [ "/jobs/view/"; "/jobs/"; "currentJobId="; "jobId=" ] !! j = Some q ->
                  ~ pattern_found q url
       | None =>
           forall p, p ∈ [ "/jobs/view/"; "/jobs/"; "currentJobId="; "jobId=" ] ->
                     ~ pattern_found p url
       end
    /\ (forall d1, pattern_capture "/jobs/view/" url d1 ->
                   pattern_found "currentJobId=" url -> r = Some d1).
Proof.
  exists (first_match patterns url). split_and!.
  - apply extract_is_first_match.
  - by intros ->.
  - apply (first_match_spec patterns url).
  - intros d1 Hcap _. apply search_Some in Hcap.
    unfold patterns. simpl. by rewrite Hcap.
Qed.

Example extract_examples :
  extract_linkedin_job_id (PStr "https://www.linkedin.com/jobs/view/1234567890/")
    = Ret (Some "1234567890")
  /\ extract_linkedin_job_id (PStr "https://example.com/about") = Ret None
  /\ extract_linkedin_job_id
       (PStr "https://www.linkedin.com/jobs/view/42?currentJobId=987") = Ret (Some "42")
  /\ extract_linkedin_job_id
       (PStr "https://www.linkedin.com/jobs/search/?currentJobId=987&jobId=5") = Ret (Some "987")
  /\ extract_linkedin_job_id (PStr "") = Ret None.
Proof. repeat split; vm_compute; reflexivity. Qed.

(** ** Whitespace *)

Lemma split_ws_words (s : string) : Forall word (PyStr.split_ws s).
Proof.
  induction s as [|c s IH]; simpl; [constructor|].
  destruct (PyStr.is_space c) eqn:Hc; [done|].
  destruct s as [|c' s'].
  - repeat constructor; [done|]. simpl. by rewrite Hc.
  - destruct (PyStr.is_space c') eqn:Hc'.
    + constructor; [|done]. split; [done|]. simpl. by rewrite Hc.
    + destruct (PyStr.split_ws (String c' s')) as [|w ws].
      * repeat constructor; [done|]. simpl. by rewrite Hc.
      * inversion IH as [|? ? [Hw1 Hw2] Hws]; subst.
        constructor; [|done]. split; [done|]. simpl. by rewrite Hc, Hw2.
Qed.

Lemma split_ws_word (w : string) : word w -> PyStr.split_ws w = [w].
Proof.
  intros [Hne Hns]. induction w as [|c w IH]; [done|].
  simpl in Hns. apply andb_true_iff in Hns as [Hc Hns].
  apply negb_true_iff in Hc. simpl. rewrite Hc.
  destruct w as [|c' w']; [done|].
  rewrite IH by done. simpl in Hns. apply andb_true_iff in Hns as [Hc' _].
  apply negb_true_iff in Hc'. by rewrite Hc'.
Qed.

Lemma split_ws_word_space (w : string) (c : ascii) (t : string) :
  word w -> PyStr.is_space c = true ->
  PyStr.split_ws (w +:+ String c t) = w :: PyStr.split_ws t.
Proof.
  intros [Hne Hns] Hsp. induction w as [|a w IH]; [done|].
  simpl in Hns. apply andb_true_iff in Hns as [Ha Hns].
  apply negb_true_iff in Ha. rewrite app_cons. cbn [PyStr.split_ws]. rewrite Ha.
  destruct w as [|a' w'].
  - rewrite app_empty_l. rewrite Hsp. cbn [PyStr.split_ws]. by rewrite Hsp.
  - rewrite app_cons. rewrite <- app_cons. rewrite IH by done.
    simpl in Hns. apply andb_true_iff in Hns as [Ha' _].
    apply negb_true_iff in Ha'. by rewrite Ha'.
Qed.

Lemma split_ws_join (ws : list string) :
  Forall word ws -> PyStr.split_ws (PyStr.join " " ws) = ws.
Proof.
  induction 1 as [|w ws Hw Hws IH]; [done|].
  destruct ws as [|w' ws'].
  - by apply split_ws_word.
  - change (PyStr.join " " (w :: w' :: ws'))
      with (w +:+ String " " (PyStr.join " " (w' :: ws'))).
    rewrite split_ws_word_space by done. by rewrite IH.
Qed.

Lemma word_tidy (w : string) : word w -> tidy w.
Proof.
  intros [Hne Hns]. split_and!; [done|..].
  - destruct w as [|c w]; [done|]. simpl in *.
    apply andb_true_iff in Hns as [Hc _]. apply negb_true_iff in Hc. by rewrite Hc.
  - clear Hne. induction w as [|c w IH]; [done|]. simpl in *.
    apply andb_true_iff in Hns as [Hc Hns]. apply negb_true_iff in Hc.
    rewrite Hc. simpl. by rewrite IH.
Qed.

Lemma rstrip_app (a b : string) :
  b <> "" -> PyStr.rstrip b = b -> PyStr.rstrip (a +:+ b) = a +:+ b.
Proof.
  intros Hne Hb. induction a as [|c a IH]; [done|].
  rewrite app_cons. cbn [PyStr.rstrip]. rewrite IH.
  destruct (a +:+ b) eqn:Hab.
  - destruct a; [by rewrite app_empty_l in Hab|done].
  - simpl. by rewrite andb_false_r.
Qed.

Lemma tidy_app (a sep b : string) : tidy a -> tidy b -> tidy (a +:+ sep +:+ b).
Proof.
  intros (Ha & Hla & _) (Hb & _ & Hrb). split_and!.
  - by destruct a.
  - destruct a as [|c a]; [done|]. rewrite app_cons. simpl in *.
    destruct (PyStr.is_space c); [|done].
    exfalso. assert (String.length (PyStr.lstrip a) <= String.length a) as Hlen.
    { clear. induction a as [|c a IH]; simpl; [lia|].
      destruct (PyStr.is_space c); simpl; lia. }
    rewrite Hla in Hlen. simpl in Hlen. lia.
  - rewrite <- app_assoc_str. by apply rstrip_app.
Qed.

Lemma join_tidy (sep : string) (ps : list string) :
  ps <> [] -> Forall tidy ps -> tidy (PyStr.join sep ps).
Proof.
  intros Hne Hps. induction Hps as [|p ps Hp Hps IH]; [done|].
  destruct ps as [|p' ps']; [done|].
  change (PyStr.join sep (p :: p' :: ps')) with (p +:+ sep +:+ PyStr.join sep (p' :: ps')).
  apply tidy_app; [done|]. by apply IH.
Qed.

Lemma clean_line_tidy (l : string) : clean_line l -> tidy l.
Proof.
  intros (ws & Hne & Hws & ->). apply join_tidy; [done|].
  eapply Forall_impl; [exact Hws|]. apply word_tidy.
Qed.

Lemma clean_line_fixed (l : string) :
  clean_line l -> PyStr.join " " (PyStr.split_ws l) = l.
Proof. intros (ws & _ & Hws & ->). by rewrite split_ws_join. Qed.

Lemma no_newline_app (a b : string) :
  no_newline (a +:+ b) = no_newline a && no_newline b.
Proof.
  induction a as [|c a IH]; [done|]. rewrite app_cons. simpl.
  by rewrite IH, andb_assoc.
Qed.

Lemma word_no_newline (w : string) : no_space w = true -> no_newline w = true.
Proof.
  induction w as [|c w IH]; [done|]. simpl.
  intros [Hc Hw]%andb_true_iff. rewrite IH by done. rewrite andb_true_r.
  destruct (Ascii.eqb_spec c "010") as [->|]; [done|done].
Qed.

Lemma clean_line_no_newline (l : string) : clean_line l -> no_newline l = true.
Proof.
  intros (ws & _ & Hws & ->). induction Hws as [|w ws [_ Hw] Hws IH]; [done|].
  destruct ws as [|w' ws']; [by apply word_no_newline|].
  change (PyStr.join " " (w :: w' :: ws'))
    with (w +:+ " " +:+ PyStr.join " " (w' :: ws')).
  rewrite !no_newline_app, IH, word_no_newline by done. done.
Qed.

Lemma split_on_line (l : string) :
  no_newline l = true -> PyStr.split_on "010" l = [l].
Proof.
  induction l as [|c l IH]; [done|]. simpl.
  intros [Hc Hl]%andb_true_iff. apply negb_true_iff in Hc.
  rewrite Hc. by rewrite IH.
Qed.

Lemma split_on_line_app (l t : string) :
  no_newline l = true ->
  PyStr.split_on "010" (l +:+ String "010" t) = l :: PyStr.split_on "010" t.
Proof.
  induction l as [|c l IH]; [done|]. cbn [no_newline].
  intros [Hc Hl]%andb_true_iff. apply negb_true_iff in Hc.
  rewrite app_cons. cbn [PyStr.split_on]. rewrite Hc. by rewrite IH.
Qed.

Lemma split_on_join (ls : list string) :
  ls <> [] -> Forall (fun l => no_newline l = true) ls ->
  PyStr.split_on "010" (PyStr.join (String "010" "") ls) = ls.
Proof.
  intros Hne Hls. induction Hls as [|l ls Hl Hls IH]; [done|].
  destruct ls as [|l' ls']; [by apply split_on_line|].
  change (PyStr.join (String "010" "") (l :: l' :: ls'))
    with (l +:+ String "010" (PyStr.join (String "010" "") (l' :: ls'))).
  rewrite split_on_line_app by done. by rewrite IH.
Qed.

Lemma kept_lines_clean (text : string) : Forall clean_line (kept_lines text).
Proof.
  apply Forall_forall. intros l [Hl Hin]%list_elem_of_filter.
  apply list_elem_of_In, in_map_iff in Hin as (x & <- & _).
  exists (PyStr.split_ws x). split_and!; [|apply split_ws_words|done].
  intros Hnil. by rewrite Hnil in Hl.
Qed.

Lemma tidy_strip (s : string) : tidy s -> PyStr.strip s = s.
Proof. intros (_ & Hl & Hr). unfold PyStr.strip. by rewrite Hl, Hr. Qed.

Section Normalize.
Context `{HtmlParser}.

Lemma normalize_whitespace_kept (text : string) :
  normalize_whitespace text = PyStr.join (String "010" "") (kept_lines text).
Proof.
  unfold normalize_whitespace. fold (kept_lines text).
  destruct (kept_lines text) as [|l ls] eqn:Hk; [done|].
  apply tidy_strip, join_tidy; [done|].
  eapply Forall_impl; [|apply clean_line_tidy].
  rewrite <- Hk. apply kept_lines_clean.
Qed.

Lemma kept_lines_fixed (ls : list string) :
  ls <> [] -> Forall clean_line ls ->
  kept_lines (PyStr.join (String "010" "") ls) = ls.
Proof.
  intros Hne Hls. unfold kept_lines. rewrite split_on_join; [|done|].
  - clear Hne. induction Hls as [|l ls Hl Hls IH]; [done|].
    simpl. rewrite clean_line_fixed by done.
    rewrite filter_cons_True.
    + f_equal. apply IH.
    + apply clean_line_tidy in Hl as (Hl & _). by destruct l.
  - eapply Forall_impl; [exact Hls|]. apply clean_line_no_newline.
Qed.

Lemma normalize_whitespace_idempotent (text : string) :
  normalize_whitespace (normalize_whitespace text) = normalize_whitespace text.
Proof.
  rewrite (normalize_whitespace_kept text).
  destruct (kept_lines text) as [|l ls] eqn:Hk; [done|].
  rewrite normalize_whitespace_kept, kept_lines_fixed; [done..|].
  rewrite <- Hk. apply kept_lines_clean.
Qed.

Lemma rewrite_breaks_plain (soup : Soup) :
  find_all soup "br" = [] -> find_all soup "li" = [] -> find_all soup "p" = [] ->
  rewrite_breaks soup = soup.
Proof.
  intros Hbr Hli Hp. unfold rewrite_breaks.
  rewrite Hbr. simpl. rewrite Hli. simpl. by rewrite Hp.
Qed.

Lemma clean_html_text_plain (s : string) :
  plain_text s -> clean_html_text s = Ret (normalize_whitespace s).
Proof.
  intros (soup & Hparse & Hbr & Hli & Hp & Htext). unfold clean_html_text.
  destruct s as [|c s]; [done|]. simpl.
  by rewrite Hparse, rewrite_breaks_plain, Htext.
Qed.

End Normalize.

Lemma plain_text_double (s : string) :
  String.eqb s Double.page || String.eqb s Double.container = false ->
  String.eqb s Double.blank_page || String.eqb s Double.blank_container = false ->
  @plain_text Double.parser s.
Proof.
  intros Hs Hb. unfold plain_text. simpl. rewrite Hs, Hb.
  eexists. split; [reflexivity|]. done.
Qed.

(** C6, as stated, fails: a plain text with two spaces in a row is not
    returned as it is; the run of spaces is collapsed, which stripping
    does not do. *)
Lemma clean_html_text_collapses_spaces :
  @plain_text Double.parser "a  b"
  /\ @clean_html_text Double.parser "a  b" = Ret "a b"
  /\ PyStr.strip "a  b" = "a  b"
  /\ @clean_html_text Double.parser "a  b" <> Ret (PyStr.strip "a  b").
Proof.
  split_and!; [by apply plain_text_double|reflexivity|reflexivity|].
  vm_compute. congruence.
Qed.

(** ** The fetcher *)

Section FetchProperties.
Context `{HtmlParser} `{Environment}.

Lemma fetch_unfold (job_id : string) (w : World) :
  job_id <> "" ->
  fetch_linkedin_description job_id w =
    let '(r, w', t) := try_except (fetch_body job_id (guest_api_url job_id))
                                  (fetch_handler job_id) w in
    (r, w', FetchCall job_id :: t).
Proof.
  intros Hne. unfold fetch_linkedin_description, bind, emit.
  apply is_empty_false in Hne. rewrite Hne.
  by destruct (try_except _ _ w) as [[r w'] t].
Qed.

Lemma fetch_handler_returns (job_id : string) (e : exn) (w : World) :
  exists lv msg, fetch_handler job_id e w = (Ret None, w, [Log lv msg]).
Proof. destruct e; do 2 eexists; reflexivity. Qed.

Lemma try_fetch_returns (job_id : string) (w : World) :
  exists r w' t,
    try_except (fetch_body job_id (guest_api_url job_id)) (fetch_handler job_id) w
    = (Ret r, w', t).
Proof.
  unfold try_except.
  destruct (fetch_body job_id (guest_api_url job_id) w) as [[[r|e] w'] t]; [by eauto|].
  destruct (fetch_handler_returns job_id e w') as (lv & msg & ->). by eauto.
Qed.

Lemma fetch_body_status (job_id : string) (w w' : World) (resp : response) :
  requests_get (guest_api_url job_id) w = (Ret resp, w') ->
  fetch_body job_id (guest_api_url job_id) w =
    let '(r, w'', t) :=
      (if (status_code resp =? 429)%Z then
         log WARNING ("Rate limited by LinkedIn for job " +:+ job_id) ;;; ret None
       else if (status_code resp =? 404)%Z then
         log DEBUG ("Job " +:+ job_id +:+ " not found (may be expired or private)") ;;;
         ret None
       else if negb (status_code resp =? 200)%Z then
         log WARNING ("Failed to fetch job " +:+ job_id +:+ ": HTTP "
                      +:+ PyStr.of_Z (status_code resp)) ;;; ret None
       else parse_description job_id (text resp)) w' in
    (r, w'', HttpGet (guest_api_url job_id) :: t).
Proof.
  intros Hget. unfold fetch_body, bind at 1, http_get. rewrite Hget.
  by destruct (_ w') as [[r w''] t].
Qed.

(** C4: [fetch_linkedin_description] always returns, whatever the
    identifier and the world: no exception leaves it.  When the request or
    the parsing raises (a timeout, a transport failure, anything else),
    the outcome is no result, with one record logged: a WARNING for a
    timeout of the request, an ERROR for its other exceptions.  Statuses 404 and
    429 both give no result; their traces differ in the level of the one
    log record only (DEBUG for 404, WARNING for 429). *)
Theorem fetch_linkedin_description_never_raises (job_id : string) (w : World) :
  (exists r w' t, fetch_linkedin_description job_id w = (Ret r, w', t))
  /\ (forall e w' t,
        job_id <> "" ->
        fetch_body job_id (guest_api_url job_id) w = (Raise e, w', t) ->
        exists lv msg,
          fetch_linkedin_description job_id w
          = (Ret None, w', FetchCall job_id :: t ++ [Log lv msg]))
  /\ (forall e w',
        job_id <> "" ->
        requests_get (guest_api_url job_id) w = (Raise e, w') ->
        exists msg,
          fetch_linkedin_description job_id w
          = (Ret None, w',
             [FetchCall job_id; HttpGet (guest_api_url job_id);
              Log (match e with RequestsTimeout _ => WARNING | _ => ERROR end) msg]))
  /\ (forall resp w' e,
        job_id <> "" ->
        requests_get (guest_api_url job_id) w = (Ret resp, w') ->
        status_code resp = 200%Z ->
        BeautifulSoup (text resp) = Raise e ->
        exists lv msg,
          fetch_linkedin_description job_id w
          = (Ret None, w',
             [FetchCall job_id; HttpGet (guest_api_url job_id); Log lv msg]))
  /\ (forall resp w',
        job_id <> "" ->
        requests_get (guest_api_url job_id) w = (Ret resp, w') ->
        (status_code resp = 404%Z ->
         exists msg,
           fetch_linkedin_description job_id w
           = (Ret None, w', [FetchCall job_id; HttpGet (guest_api_url job_id);
                             Log DEBUG msg]))
        /\ (status_code resp = 429%Z ->
            exists msg,
              fetch_linkedin_description job_id w
              = (Ret None, w', [FetchCall job_id; HttpGet (guest_api_url job_id);
                                Log WARNING msg]))).
Proof.
  split_and!.
  - destruct (decide (job_id = "")) as [->|Hne]; [by eexists _, _, _|].
    rewrite fetch_unfold by done.
    destruct (try_fetch_returns job_id w) as (r & w' & t & ->). by eauto.
  - intros e w' t Hne Hbody. rewrite fetch_unfold by done.
    unfold try_except. rewrite Hbody.
    destruct (fetch_handler_returns job_id e w') as (lv & msg & ->). by eauto.
  - intros e w' Hne Hget. rewrite fetch_unfold by done.
    unfold try_except, fetch_body, bind, http_get. rewrite Hget.
    destruct e; simpl; by eauto.
  - intros resp w' e Hne Hget H200 Hsoup. rewrite fetch_unfold by done.
    unfold try_except. rewrite (fetch_body_status _ _ _ _ Hget), H200. simpl.
    unfold parse_description, bind, lift_outcome. rewrite Hsoup.
    destruct e; simpl; by eauto.
  - intros resp w' Hne Hget. split; intros Hst.
    + rewrite fetch_unfold by done. unfold try_except.
      rewrite (fetch_body_status _ _ _ _ Hget), Hst. simpl. by eauto.
    + rewrite fetch_unfold by done. unfold try_except.
      rewrite (fetch_body_status _ _ _ _ Hget), Hst. simpl. by eauto.
Qed.

(** C3, as amended: for every response status other than 404 and 429,
    a status other than 200 (the rest of the 2xx range included) gives no
    result and one WARNING record, without parsing; status 200 has the
    body parsed and the primary container looked for first, whose outer
    markup is normalized and returned. *)
Theorem fetch_linkedin_description_status (job_id : string) (w w' : World)
    (resp : response) :
  job_id <> "" ->
  requests_get (guest_api_url job_id) w = (Ret resp, w') ->
  status_code resp <> 404%Z -> status_code resp <> 429%Z ->
  (status_code resp <> 200%Z ->
   fetch_linkedin_description job_id w
   = (Ret None, w',
      [FetchCall job_id; HttpGet (guest_api_url job_id);
       Log WARNING ("Failed to fetch job " +:+ job_id +:+ ": HTTP "
                    +:+ PyStr.of_Z (status_code resp))]))
  /\ (status_code resp = 200%Z ->
      fetch_linkedin_description job_id w
      = (let '(r, w'', t) := try_except (parse_description job_id (text resp))
                                        (fetch_handler job_id) w' in
         (r, w'', FetchCall job_id :: HttpGet (guest_api_url job_id) :: t))
      /\ forall soup description_div d,
           BeautifulSoup (text resp) = Ret soup ->
           find_class soup primary_container = Some description_div ->
           clean_html_text (tag_str soup description_div) = Ret d ->
           fetch_linkedin_description job_id w
           = (Ret (Some d), w',
              [FetchCall job_id; HttpGet (guest_api_url job_id)])).
Proof.
  intros Hne Hget H404 H429.
  assert (fetch_linkedin_description job_id w =
          let '(r, w'', t) :=
            try_except
              (if negb (status_code resp =? 200)%Z then
                 log WARNING ("Failed to fetch job " +:+ job_id +:+ ": HTTP "
                              +:+ PyStr.of_Z (status_code resp)) ;;; ret None
               else parse_description job_id (text resp))
              (fetch_handler job_id) w' in
          (r, w'', FetchCall job_id :: HttpGet (guest_api_url job_id) :: t)) as Hfetch.
  { rewrite fetch_unfold by done. unfold try_except.
    rewrite (fetch_body_status _ _ _ _ Hget).
    apply Z.eqb_neq in H404, H429. rewrite H404, H429.
    destruct (negb (status_code resp =? 200)%Z); [done|].
    destruct (parse_description job_id (text resp) w') as [[[r|e] w''] t]; [done|].
    by destruct (fetch_handler job_id e w'') as [[r' w3] t']. }
  split.
  - intros H200. rewrite Hfetch. apply Z.eqb_neq in H200. by rewrite H200.
  - intros H200. rewrite Hfetch, H200. simpl. split; [done|].
    intros soup div d Hsoup Hdiv Hclean.
    unfold try_except, parse_description, bind, lift_outcome.
    rewrite Hsoup. unfold primary_container in Hdiv. rewrite Hdiv, Hclean. done.
Qed.

End FetchProperties.

Lemma fetch_linkedin_description_status_witness :
  @fetch_linkedin_description Double.parser (Double.net 200 Double.page) "123" 0%Q
  = (Ret (Some "Hi"), 0%Q,
     [FetchCall "123";
      HttpGet "https://www.linkedin.com/jobs-guest/jobs/api/jobPosting/123"]).
Proof.
  destruct (@fetch_linkedin_description_status Double.parser (Double.net 200 Double.page)
              "123" 0%Q 0%Q {| status_code := 200; text := Double.page |})
    as [_ Hparsed]; [done|reflexivity|done|done|].
  destruct (Hparsed eq_refl) as [_ Hfound].
  apply (Hfound {| Double.doc_text := "Hi";
                   Double.doc_classes := [(primary_container, Double.container)] |}
                Double.container "Hi"); reflexivity.
Defined.

(** C3, as stated, fails: a response with status 204, of the 2xx range,
    whose body holds the primary container is not parsed; the fetcher
    logs a warning and returns no result, where parsing the same body
    gives the description. *)
Lemma fetch_linkedin_description_204_not_parsed :
  is_2xx 204 = true
  /\ @requests_get (Double.net 204 Double.page)
       "https://www.linkedin.com/jobs-guest/jobs/api/jobPosting/123" 0%Q
     = (Ret {| status_code := 204; text := Double.page |}, 0%Q)
  /\ @fetch_linkedin_description Double.parser (Double.net 204 Double.page) "123" 0%Q
     = (Ret None, 0%Q,
        [FetchCall "123";
         HttpGet "https://www.linkedin.com/jobs-guest/jobs/api/jobPosting/123";
         Log WARNING "Failed to fetch job 123: HTTP 204"])
  /\ @parse_description Double.parser (Double.net 204 Double.page) "123" Double.page 0%Q
     = (Ret (Some "Hi"), 0%Q, []).
Proof. split_and!; reflexivity. Qed.

(** ** Quiet computations *)

Lemma io_projections (t : list event) :
  forallb is_io t = true ->
  fetch_calls t = [] /\ progress_calls t = [] /\ sleeps t = [] /\ pace t = [].
Proof.
  induction t as [|e t IH]; [done|]. simpl.
  intros [He Ht]%andb_true_iff. destruct (IH Ht) as (? & ? & ? & ?).
  unfold fetch_calls, progress_calls, sleeps, pace in *.
  by destruct e; simpl in *.
Qed.

Lemma quiet_ret {S A} (a : A) : quiet (@ret S A a).
Proof. by intros s. Qed.

Lemma quiet_log {S} (lv : level) (msg : string) : quiet (@log S lv msg).
Proof. by intros s. Qed.

Lemma quiet_lift_outcome {S A} (o : outcome A) : quiet (@lift_outcome S A o).
Proof. by intros s. Qed.

Lemma quiet_bind {S A B} (m : M S A) (k : A -> M S B) :
  quiet m -> (forall a, quiet (k a)) -> quiet (bind m k).
Proof.
  intros Hm Hk s. unfold bind. specialize (Hm s).
  destruct (m s) as [[[a|e] s'] t]; [|done].
  specialize (Hk a s'). destruct (k a s') as [[r s''] t'].
  unfold events_of in *. simpl in *. rewrite forallb_app. by rewrite Hm, Hk.
Qed.

Lemma quiet_try_except {S A} (body : M S A) (handler : exn -> M S A) :
  quiet body -> (forall e, quiet (handler e)) -> quiet (try_except body handler).
Proof.
  intros Hm Hk s. unfold try_except. specialize (Hm s).
  destruct (body s) as [[[a|e] s'] t]; [done|].
  specialize (Hk e s'). destruct (handler e s') as [[r s''] t'].
  unfold events_of in *. simpl in *. rewrite forallb_app. by rewrite Hm, Hk.
Qed.

Create HintDb quiet.
#[local] Hint Resolve quiet_ret quiet_log quiet_lift_outcome quiet_bind
  quiet_try_except : quiet.

Section QuietFetch.
Context `{HtmlParser} `{Environment}.

Lemma quiet_http_get (url : string) : quiet (http_get url).
Proof. intros w. unfold http_get. by destruct (requests_get url w). Qed.

Lemma quiet_parse_description (job_id body : string) :
  quiet (parse_description job_id body).
Proof.
  unfold parse_description. apply quiet_bind; [auto with quiet|].
  intros soup. destruct (find_class soup _); [auto with quiet|].
  destruct (first_container soup _); auto with quiet.
Qed.

Lemma quiet_fetch_body (job_id url : string) : quiet (fetch_body job_id url).
Proof.
  unfold fetch_body. apply quiet_bind; [apply quiet_http_get|].
  intros resp. repeat case_match; auto using quiet_parse_description with quiet.
Qed.

Lemma quiet_fetch_handler (job_id : string) (e : exn) : quiet (fetch_handler job_id e).
Proof. destruct e; simpl; auto with quiet. Qed.

(** A call of the fetcher returns; its events are the call itself, then
    requests and log records. *)
Lemma fetch_events (job_id : string) (w : World) :
  exists r w' t,
    fetch_linkedin_description job_id w = (Ret r, w', FetchCall job_id :: t)
    /\ forallb is_io t = true.
Proof.
  destruct (decide (job_id = "")) as [->|Hne]; [by eexists _, _, []|].
  rewrite fetch_unfold by done.
  pose proof (quiet_try_except _ _ (quiet_fetch_body job_id (guest_api_url job_id))
                (quiet_fetch_handler job_id) w) as Hq.
  destruct (try_fetch_returns job_id w) as (r & w' & t & Heq).
  rewrite Heq in *. by eexists _, _, _.
Qed.

End QuietFetch.

(** ** Targeting *)

Lemma eqb_empty (s : string) : String.eqb s "" = PyStr.is_empty s.
Proof. by destruct s. Qed.

Lemma dict_get_text (job : gmap string pyval) (key : string) :
  is_text_field job key = true ->
  dict_get job key = PStr (field_text job key)
  \/ (dict_get job key = PNone /\ field_text job key = "").
Proof.
  unfold is_text_field, dict_get, field_text.
  destruct (job !! key) as [[| | |]|]; simpl; auto; discriminate.
Qed.

Lemma search_nonempty (p s d : string) : Re.search p s = Some d -> d <> "".
Proof.
  induction s as [|c s IH]; cbn [Re.search];
    destruct (Re.match_here p _) as [d'|] eqn:Hm; try done.
  all: intros [= <-]; apply match_here_Some in Hm as (? & _ & ? & _); done.
Qed.

Lemma first_match_nonempty (ps : list string) (url d : string) :
  first_match ps url = Some d -> d <> "".
Proof.
  induction ps as [|p ps IH]; [done|]. simpl.
  destruct (Re.search p url) eqn:Hs; [|done].
  intros [= <-]. by eapply search_nonempty.
Qed.

Lemma site_posting_record (job : gmap string pyval) :
  is_text_field job "site" = true ->
  String.eqb (PyStr.lower (py_str (dict_get job "site"))) "linkedin"
  = site_is_linkedin job.
Proof.
  intros [->|[-> Hnone]]%dict_get_text; [done|].
  unfold site_is_linkedin. by rewrite Hnone.
Qed.

Lemma lacks_description_posting_record (job : gmap string pyval) :
  is_text_field job "description" = true ->
  lacks_description job = Ret (description_is_blank job).
Proof.
  unfold lacks_description, description_is_blank.
  intros [->|[-> ->]]%dict_get_text; [|done].
  destruct (field_text job "description"); [done|]. simpl.
  by rewrite eqb_empty.
Qed.

Lemma job_id_of_text (url : string) :
  job_id_of (PStr url)
  = Ret (match extract_linkedin_job_id (PStr url) with
         | Ret (Some job_id) => Some job_id
         | _ => None
         end).
Proof.
  unfold job_id_of. rewrite extract_is_first_match.
  destruct (first_match patterns url) as [d|] eqn:Hd; [|done].
  apply first_match_nonempty, is_empty_false in Hd. simpl. by rewrite Hd.
Qed.

Lemma job_id_of_posting_record (job : gmap string pyval) :
  is_text_field job "link" = true -> is_text_field job "job_url" = true ->
  job_id_of (job_url_of job) = Ret (identifier job).
Proof.
  unfold job_url_of, identifier, url_field, py_or.
  intros [->|[-> ->]]%dict_get_text [->|[-> ->]]%dict_get_text; simpl.
  - destruct (PyStr.is_empty (field_text job "link")); simpl; apply job_id_of_text.
  - by destruct (PyStr.is_empty (field_text job "link")); simpl;
      rewrite ?job_id_of_text.
  - apply job_id_of_text.
  - done.
Qed.

Lemma job_target_posting_record (job : gmap string pyval) :
  posting_record job -> job_target job = Ret (targeted job).
Proof.
  intros (Hsite & Hdesc & Hlink & Hurl). unfold job_target, targeted.
  rewrite site_posting_record, lacks_description_posting_record by done.
  destruct (site_is_linkedin job); [|done].
  destruct (description_is_blank job); [|done].
  by apply job_id_of_posting_record.
Qed.

Lemma scan_jobs_targets (h : loc -> gmap string pyval) (i : nat) (jobs : list loc) :
  Forall (fun l => posting_record (h l)) jobs ->
  scan_jobs h i jobs = Ret (targets h i jobs).
Proof.
  intros Hjobs. revert i. induction Hjobs as [|l jobs Hl Hjobs IH]; intros i; [done|].
  simpl. rewrite job_target_posting_record by done. rewrite IH.
  by destruct (targeted (h l)).
Qed.

Lemma targets_elem (h : loc -> gmap string pyval) (i : nat) (jobs : list loc)
    (j : nat) (job_id : string) :
  (j, job_id) ∈ targets h i jobs <->
  exists l, i <= j /\ jobs !! (j - i) = Some l /\ targeted (h l) = Some job_id.
Proof.
  revert i. induction jobs as [|l jobs IH]; intros i; simpl.
  - split; [by intros ?%elem_of_nil|]. by intros (? & _ & ? & _).
  - assert ((j, job_id) ∈ targets h (S i) jobs <->
            exists l', i < j /\ jobs !! (j - S i) = Some l'
                       /\ targeted (h l') = Some job_id) as Hrest.
    { rewrite IH. by split; intros (l' & ? & ? & ?); exists l'. }
    assert ((exists l', i <= j /\ (l :: jobs) !! (j - i) = Some l'
                        /\ targeted (h l') = Some job_id) <->
            (j = i /\ targeted (h l) = Some job_id)
            \/ (exists l', i < j /\ jobs !! (j - S i) = Some l'
                           /\ targeted (h l') = Some job_id)) as ->.
    { split.
      - intros (l' & Hle & Hl' & Ht).
        destruct (decide (j = i)) as [->|Hne].
        + left. rewrite Nat.sub_diag in Hl'. by injection Hl' as <-.
        + right. exists l'. split_and!; [lia| |done].
          by replace (j - i) with (S (j - S i)) in Hl' by lia.
      - intros [[-> Ht]|(l' & Hlt & Hl' & Ht)].
        + exists l. by rewrite Nat.sub_diag.
        + exists l'. split_and!; [lia| |done].
          by replace (j - i) with (S (j - S i)) by lia. }
    rewrite <- Hrest. destruct (targeted (h l)) as [d|].
    + rewrite elem_of_cons. split.
      * intros [[= -> ->]|?]; [by left|by right].
      * intros [[-> [= ->]]|?]; [by left|by right].
    + split; [by right|]. by intros [[_ ?]|?].
Qed.

Lemma targets_from (h : loc -> gmap string pyval) (i : nat) (jobs : list loc) :
  Forall (fun p => i <= p.1) (targets h i jobs).
Proof.
  apply Forall_forall. intros [j job_id] (l & Hle & _)%targets_elem. done.
Qed.

Lemma targets_sorted (h : loc -> gmap string pyval) (i : nat) (jobs : list loc) :
  StronglySorted lt ((targets h i jobs).*1).
Proof.
  revert i. induction jobs as [|l jobs IH]; intros i; simpl; [constructor|].
  destruct (targeted (h l)); [|done]. simpl. constructor; [done|].
  apply Forall_fmap. eapply Forall_impl; [apply (targets_from h (S i))|].
  intros [j ?]; simpl. lia.
Qed.

(** ** The loop *)

Lemma omap_app_events {B} (f : event -> option B) (t1 t2 : list event) :
  omap f (t1 ++ t2) = omap f t1 ++ omap f t2.
Proof. apply omap_app. Qed.

Section BatchProperties.
Context `{HtmlParser} `{Environment}.

Lemma report_progress_spec (cb : option callback) (current total : nat) (st : state) :
  exists w1 t1,
    report_progress cb current total st
    = (Ret tt, {| heap := heap st; world := w1 |}, t1)
    /\ progress_calls t1 = (if cb is Some _ then [(current, total)] else [])
    /\ fetch_calls t1 = [] /\ sleeps t1 = [] /\ pace t1 = []
    /\ (cb = None -> t1 = []).
Proof.
  destruct cb as [cb|]; simpl.
  - unfold try_except, call_callback.
    destruct (cb current total (world st)) as [[[]|e] w1] eqn:Hcb.
    + by eexists _, _.
    + by eexists _, _.
  - destruct st. by eexists _, _.
Qed.

Lemma process_job_spec (jobs : list loc) (cb : option callback)
    (total idx job_index : nat) (job_id : string) (fetched failed : nat)
    (st : state) (l : loc) :
  jobs !! job_index = Some l ->
  exists counts' st' tr w1 r w2 tf,
    process_job jobs cb total idx job_index job_id (fetched, failed) st
    = (Ret counts', st', tr)
    /\ fetch_linkedin_description job_id w1 = (Ret r, w2, tf)
    /\ ((exists d, r = Some d /\ d <> "" /\ counts' = (fetched + 1, failed)
                   /\ heap st' = stored (heap st) l d)
        \/ (no_description r /\ counts' = (fetched, failed + 1)
            /\ heap st' = heap st))
    /\ fetch_calls tr = [job_id]
    /\ progress_calls tr = (if cb is Some _ then [(idx + 1, total)] else [])
    /\ sleeps tr = (if idx <? total - 1 then [LINKEDIN_FETCH_DELAY] else [])
    /\ pace tr = FetchCall job_id
                 :: (if idx <? total - 1 then [Sleep LINKEDIN_FETCH_DELAY] else []).
Proof.
  intros Hl.
  destruct (report_progress_spec cb (idx + 1) total st)
    as (w1 & t1 & Hrep & Hp1 & Hf1 & Hs1 & Hpace1 & _).
  destruct (fetch_events job_id w1) as (r & w2 & t2 & Hfetch & Hio).
  destruct (io_projections t2 Hio) as (Hf2 & Hp2 & Hs2 & Hpace2).
  unfold process_job, bind. rewrite Hrep. unfold lift_world. simpl.
  rewrite Hfetch.
  destruct r as [[|c d]|]; simpl.
  - unfold sleep. destruct (idx <? total - 1); simpl;
      eexists _, _, _, w1, _, w2, _; (split; [reflexivity|]);
      (split; [exact Hfetch|]); (split; [right; split_and!; [by right|done..]|]);
      unfold fetch_calls, progress_calls, sleeps, pace in *;
      rewrite !omap_app_events; simpl; rewrite ?omap_app_events;
      rewrite ?Hp1, ?Hf1, ?Hs1, ?Hpace1, ?Hp2, ?Hf2, ?Hs2, ?Hpace2; simpl;
      rewrite ?app_nil_r; done.
  - unfold set_description. rewrite Hl. simpl.
    unfold sleep. destruct (idx <? total - 1); simpl;
      eexists _, _, _, w1, _, w2, _; (split; [reflexivity|]);
      (split; [exact Hfetch|]);
      (split; [left; eexists; split_and!; [done..|reflexivity]|]);
      unfold fetch_calls, progress_calls, sleeps, pace in *;
      rewrite !omap_app_events; simpl; rewrite ?omap_app_events;
      rewrite ?Hp1, ?Hf1, ?Hs1, ?Hpace1, ?Hp2, ?Hf2, ?Hs2, ?Hpace2; simpl;
      rewrite ?app_nil_r; done.
  - unfold sleep. destruct (idx <? total - 1); simpl;
      eexists _, _, _, w1, _, w2, _; (split; [reflexivity|]);
      (split; [exact Hfetch|]); (split; [right; split_and!; [by left|done..]|]);
      unfold fetch_calls, progress_calls, sleeps, pace in *;
      rewrite !omap_app_events; simpl; rewrite ?omap_app_events;
      rewrite ?Hp1, ?Hf1, ?Hs1, ?Hpace1, ?Hp2, ?Hf2, ?Hs2, ?Hpace2; simpl;
      rewrite ?app_nil_r; done.
Qed.

Lemma stored_other_key (h : loc -> gmap string pyval) (l l' : loc)
    (d key : string) :
  key <> "description" -> stored h l d l' !! key = h l' !! key.
Proof.
  intros Hkey. unfold stored. destruct (decide (l' = l)) as [->|]; [|done].
  by rewrite lookup_insert_ne.
Qed.

Lemma stored_other_loc (h : loc -> gmap string pyval) (l l' : loc) (d : string) :
  l' <> l -> stored h l d l' = h l'.
Proof. intros Hne. unfold stored. by destruct (decide (l' = l)). Qed.

Lemma enrich_loop_spec (jobs : list loc) (cb : option callback) (total : nat)
    (to_fetch : list (nat * string)) :
  Forall (fun p => is_Some (jobs !! p.1)) to_fetch ->
  forall (idx : nat) (counts : nat * nat) (st : state),
  exists counts' st' tr,
    enrich_loop jobs cb total idx to_fetch counts st = (Ret counts', st', tr)
    /\ fetch_calls tr = to_fetch.*2
    /\ progress_calls tr
       = (if cb is Some _ then reports total idx (length to_fetch) else [])
    /\ (idx + length to_fetch = total ->
        pace tr = paced LINKEDIN_FETCH_DELAY to_fetch.*2
        /\ sleeps tr = replicate (length to_fetch - 1) LINKEDIN_FETCH_DELAY)
    /\ (forall l key, key <> "description" -> heap st' l !! key = heap st l !! key)
    /\ (forall l, (forall p, p ∈ to_fetch -> jobs !! p.1 <> Some l) ->
                  heap st' l = heap st l)
    /\ ((forall job_id w r w' t,
            job_id ∈ to_fetch.*2 ->
            fetch_linkedin_description job_id w = (Ret r, w', t) -> no_description r) ->
        heap st' = heap st /\ counts' = (counts.1, counts.2 + length to_fetch))
    /\ counts'.1 + counts'.2 = counts.1 + counts.2 + length to_fetch.
Proof.
  induction 1 as [|[job_index job_id] rest [l Hl] Hrest IH]; intros idx counts st.
  - eexists _, _, _. split; [reflexivity|]. simpl.
    split_and!; try done; try lia.
    + by destruct cb.
    + by destruct counts; rewrite Nat.add_0_r.
  - destruct counts as [fetched failed]. simpl in Hl.
    destruct (process_job_spec jobs cb total idx job_index job_id fetched failed st l Hl)
      as (counts1 & st1 & tr1 & w1 & r & w2 & tf & Hstep & Hfetch & Hcase
          & Hf1 & Hp1 & Hs1 & Hpace1).
    destruct (IH (S idx) counts1 st1)
      as (counts2 & st2 & tr2 & Hloop & Hf2 & Hp2 & Hpaced & Hkeys & Hframe
          & Hnone & Hsum).
    exists counts2, st2, (tr1 ++ tr2). split_and!.
    + cbn [enrich_loop]. unfold bind. by rewrite Hstep, Hloop.
    + unfold fetch_calls in *. by rewrite omap_app_events, Hf1, Hf2.
    + unfold progress_calls in *. rewrite omap_app_events, Hp1, Hp2.
      by destruct cb.
    + intros Htotal. cbn [length] in Htotal.
      destruct Hpaced as [Hpace2 Hs2]; [lia|].
      unfold pace, sleeps in *. rewrite !omap_app_events, Hpace1, Hs1, Hpace2, Hs2.
      destruct rest as [|p rest'].
      * assert ((idx <? total - 1) = false) as -> by (apply Nat.ltb_ge; simpl in *; lia).
        done.
      * assert ((idx <? total - 1) = true) as -> by (apply Nat.ltb_lt; simpl in *; lia).
        simpl. by rewrite Nat.sub_0_r.
    + intros l' key Hkey. rewrite Hkeys by done.
      destruct Hcase as [(d & _ & _ & _ & ->)|(_ & _ & ->)]; [|done].
      by apply stored_other_key.
    + intros l' Hl'. rewrite Hframe.
      * destruct Hcase as [(d & _ & _ & _ & ->)|(_ & _ & ->)]; [|done].
        apply stored_other_loc. intros ->.
        by apply (Hl' (job_index, job_id)); [left|].
      * intros p Hp. apply Hl'. by right.
    + intros Hno. destruct Hnone as [-> ->].
      { intros job_id' w r' w' t Hin. apply Hno. by right. }
      destruct Hcase as [(d & -> & Hd & _)|(_ & -> & ->)].
      * exfalso.
        assert (no_description (Some d)) as [?|[= ?]]; [|done..].
        eapply (Hno job_id); [by left|exact Hfetch].
      * split; [done|]. simpl. f_equal. lia.
    + rewrite Hsum. simpl.
      destruct Hcase as [(d & _ & _ & -> & _)|(_ & -> & _)]; simpl; lia.
Qed.

Lemma targets_valid (h : loc -> gmap string pyval) (jobs : list loc) :
  Forall (fun p => is_Some (jobs !! p.1)) (targets h 0 jobs).
Proof.
  apply Forall_forall. intros [j job_id] (l & _ & Hl & _)%targets_elem.
  rewrite Nat.sub_0_r in Hl. by exists l.
Qed.

(** The whole run, for posting records: what it returns, what it leaves
    in the heap, and what its trace shows. *)
Lemma batch_spec (jobs : list loc) (cb : option callback) (st : state) :
  Forall (fun l => posting_record (heap st l)) jobs ->
  exists st' tr,
    fetch_descriptions_for_jobs jobs cb st = (Ret jobs, st', tr)
    /\ fetch_calls tr = (targets (heap st) 0 jobs).*2
    /\ progress_calls tr
       = (if cb is Some _
          then reports (length (targets (heap st) 0 jobs)) 0
                       (length (targets (heap st) 0 jobs))
          else [])
    /\ pace tr = paced LINKEDIN_FETCH_DELAY (targets (heap st) 0 jobs).*2
    /\ sleeps tr = replicate (length (targets (heap st) 0 jobs) - 1) LINKEDIN_FETCH_DELAY
    /\ (forall l key, key <> "description" -> heap st' l !! key = heap st l !! key)
    /\ (forall l, (forall p, p ∈ targets (heap st) 0 jobs -> jobs !! p.1 <> Some l) ->
                  heap st' l = heap st l)
    /\ (targets (heap st) 0 jobs = [] ->
        st' = st /\ tr = [Log INFO "No LinkedIn jobs need description fetching"])
    /\ ((forall job_id w r w' t,
            job_id ∈ (targets (heap st) 0 jobs).*2 ->
            fetch_linkedin_description job_id w = (Ret r, w', t) -> no_description r) ->
        heap st' = heap st
        /\ (targets (heap st) 0 jobs <> [] ->
            last tr = Some (Log INFO (summary 0 (length (targets (heap st) 0 jobs))
                                              (length (targets (heap st) 0 jobs)))))).
Proof.
  intros Hjobs. unfold fetch_descriptions_for_jobs, bind at 1, linkedin_jobs_to_fetch.
  rewrite scan_jobs_targets by done.
  destruct (targets (heap st) 0 jobs) as [|p rest] eqn:Hsel.
  - eexists _, _. split; [reflexivity|]. simpl. split_and!; try done.
    by destruct cb.
  - pose proof (targets_valid (heap st) jobs) as Hvalid. rewrite Hsel in Hvalid.
    destruct (enrich_loop_spec jobs cb (length (p :: rest)) (p :: rest) Hvalid 0 (0, 0) st)
      as (counts & st' & tr & Hloop & Hf & Hp & Hpaced & Hkeys & Hframe & Hnone & Hsum).
    destruct Hpaced as [Hpace Hs]; [done|].
    unfold bind, log, emit, ret. rewrite Hloop.
    eexists _, _. split; [reflexivity|].
    unfold fetch_calls, progress_calls, pace, sleeps in *.
    rewrite !app_nil_l, !app_nil_r.
    rewrite !omap_app_events, Hf, Hp, Hpace, Hs. cbn [omap app].
    rewrite !app_nil_r. split_and!; try done.
    intros Hno. destruct (Hnone Hno) as [Hheap ->]. split; [done|].
    intros _. cbn [fst snd]. by rewrite app_comm_cons, last_snoc.
Qed.

Lemma targeted_conditions (job : gmap string pyval) (job_id : string) :
  targeted job = Some job_id <->
  site_is_linkedin job = true /\ description_is_blank job = true
  /\ identifier job = Some job_id.
Proof.
  unfold targeted.
  destruct (site_is_linkedin job), (description_is_blank job); simpl;
    intuition congruence.
Qed.

Lemma not_targeted_conditions (job : gmap string pyval) :
  targeted job = None <->
  site_is_linkedin job = false \/ description_is_blank job = false
  \/ identifier job = None.
Proof.
  unfold targeted.
  destruct (site_is_linkedin job), (description_is_blank job); simpl;
    intuition congruence.
Qed.

Lemma reports_lookup (total idx n k : nat) :
  k < n -> reports total idx n !! k = Some (idx + k + 1, total).
Proof.
  revert idx k. induction n as [|n IH]; intros idx k Hk; [lia|].
  destruct k as [|k]; simpl.
  - by rewrite Nat.add_0_r.
  - rewrite IH by lia. do 2 f_equal. lia.
Qed.

Lemma reports_length (total idx n : nat) : length (reports total idx n) = n.
Proof. revert idx. induction n as [|n IH]; intros idx; simpl; [done|]. by rewrite IH. Qed.

(** C1: for every list of posting records, the records selected for
    enrichment are exactly those whose site is "linkedin" whatever the
    case, whose description is empty or whitespace only, and whose URL
    field yields an identifier, listed by increasing position; the run
    returns, the fetcher is called once for each of them in that order,
    and a record failing one of the three conditions is left as it was. *)
Theorem fetch_descriptions_for_jobs_selects_targets (jobs : list loc)
    (cb : option callback) (st : state) :
  Forall (fun l => posting_record (heap st l)) jobs ->
  linkedin_jobs_to_fetch jobs st = (Ret (targets (heap st) 0 jobs), st, [])
  /\ (forall i job_id,
        (i, job_id) ∈ targets (heap st) 0 jobs <->
        exists l, jobs !! i = Some l
                  /\ site_is_linkedin (heap st l) = true
                  /\ description_is_blank (heap st l) = true
                  /\ identifier (heap st l) = Some job_id)
  /\ StronglySorted lt (targets (heap st) 0 jobs).*1
  /\ exists st' tr,
       fetch_descriptions_for_jobs jobs cb st = (Ret jobs, st', tr)
       /\ fetch_calls tr = (targets (heap st) 0 jobs).*2
       /\ forall i l,
            jobs !! i = Some l ->
            site_is_linkedin (heap st l) = false
            \/ description_is_blank (heap st l) = false
            \/ identifier (heap st l) = None ->
            heap st' l = heap st l.
Proof.
  intros Hjobs. split_and!.
  - unfold linkedin_jobs_to_fetch. by rewrite scan_jobs_targets.
  - intros i job_id. rewrite targets_elem. rewrite Nat.sub_0_r.
    split.
    + intros (l & _ & Hl & Ht%targeted_conditions). by exists l.
    + intros (l & Hl & Ht). exists l. split_and!; [lia|done|].
      by apply targeted_conditions.
  - apply targets_sorted.
  - destruct (batch_spec jobs cb st Hjobs)
      as (st' & tr & Hrun & Hcalls & _ & _ & _ & _ & Hframe & _).
    exists st', tr. split_and!; [done..|].
    intros i l Hl Hfail%not_targeted_conditions. apply Hframe.
    intros [j job_id] (l' & _ & Hl' & Ht)%targets_elem Hj. simpl in Hj.
    rewrite Nat.sub_0_r in Hl'. congruence.
Qed.

(** C5: for posting records, the run returns the list it was given; in
    every dict every field other than [description] is as before, and a
    dict that no selected entry of the list refers to is unchanged; when
    the fetcher gives no result for any selected identifier, no dict
    changes, and the summary reports no description fetched and as many failures as there
    are selected records. *)
Theorem fetch_descriptions_for_jobs_frame (jobs : list loc)
    (cb : option callback) (st : state) :
  Forall (fun l => posting_record (heap st l)) jobs ->
  exists st' tr,
    fetch_descriptions_for_jobs jobs cb st = (Ret jobs, st', tr)
    /\ (forall l key, key <> "description" -> heap st' l !! key = heap st l !! key)
    /\ (forall l, (forall i, jobs !! i = Some l -> targeted (heap st l) = None) ->
                  heap st' l = heap st l)
    /\ ((forall job_id w r w' t,
            job_id ∈ (targets (heap st) 0 jobs).*2 ->
            fetch_linkedin_description job_id w = (Ret r, w', t) -> r = None) ->
        heap st' = heap st
        /\ (targets (heap st) 0 jobs <> [] ->
            last tr = Some (Log INFO (summary 0 (length (targets (heap st) 0 jobs))
                                              (length (targets (heap st) 0 jobs)))))).
Proof.
  intros Hjobs.
  destruct (batch_spec jobs cb st Hjobs)
    as (st' & tr & Hrun & _ & _ & _ & _ & Hkeys & Hframe & _ & Hnone).
  exists st', tr. split_and!; [done..| |].
  - intros l Hl. apply Hframe.
    intros [j job_id] (l' & _ & Hl' & Ht)%targets_elem Hj. simpl in Hj.
    rewrite Nat.sub_0_r in Hl'. assert (l' = l) as -> by congruence.
    rewrite (Hl j Hj) in Ht. done.
  - intros Hno. apply Hnone. intros job_id w r w' t Hin Hfetch.
    left. by eapply Hno.
Qed.

(** C7: for posting records of which [n] are selected, the run sleeps
    [n - 1] times, each time for the configured delay: once after every
    call of the fetcher but the last; with no record selected the list is
    returned, the state is as before and nothing but the note is logged. *)
Theorem fetch_descriptions_for_jobs_pacing (jobs : list loc)
    (cb : option callback) (st : state) :
  Forall (fun l => posting_record (heap st l)) jobs ->
  exists st' tr,
    fetch_descriptions_for_jobs jobs cb st = (Ret jobs, st', tr)
    /\ sleeps tr = replicate (length (targets (heap st) 0 jobs) - 1) LINKEDIN_FETCH_DELAY
    /\ pace tr = paced LINKEDIN_FETCH_DELAY (targets (heap st) 0 jobs).*2
    /\ (length (targets (heap st) 0 jobs) = 0 ->
        st' = st /\ sleeps tr = []
        /\ tr = [Log INFO "No LinkedIn jobs need description fetching"]).
Proof.
  intros Hjobs.
  destruct (batch_spec jobs cb st Hjobs)
    as (st' & tr & Hrun & _ & _ & Hpace & Hsleeps & _ & _ & Hnone & _).
  exists st', tr. split_and!; [done..|].
  intros Hn. destruct (targets (heap st) 0 jobs) as [|p rest]; [|done].
  destruct Hnone as [-> ->]; done.
Qed.

(** C8: for posting records of which [n] are selected and a progress
    callback, the callback is called [n] times, the [k]-th time with
    [k] (counted from 1) and [n]; whatever it does or raises, the run
    returns the list and the fetcher is called for the selected records
    in order, as without a callback; an exception of the callback is
    caught and logged at DEBUG level. *)
Theorem fetch_descriptions_for_jobs_progress (jobs : list loc)
    (cb : callback) (st : state) :
  Forall (fun l => posting_record (heap st l)) jobs ->
  (exists st' tr,
     fetch_descriptions_for_jobs jobs (Some cb) st = (Ret jobs, st', tr)
     /\ length (progress_calls tr) = length (targets (heap st) 0 jobs)
     /\ (forall k, k < length (targets (heap st) 0 jobs) ->
           progress_calls tr !! k = Some (k + 1, length (targets (heap st) 0 jobs)))
     /\ fetch_calls tr = (targets (heap st) 0 jobs).*2
     /\ exists st0 tr0,
          fetch_descriptions_for_jobs jobs None st = (Ret jobs, st0, tr0)
          /\ fetch_calls tr0 = fetch_calls tr /\ progress_calls tr0 = [])
  /\ (forall current total s e w',
        cb current total (world s) = (Raise e, w') ->
        report_progress (Some cb) current total s
        = (Ret tt, {| heap := heap s; world := w' |},
           [Progress current total;
            Log DEBUG ("Progress callback error: " +:+ exn_str e)])).
Proof.
  intros Hjobs. split.
  - destruct (batch_spec jobs (Some cb) st Hjobs)
      as (st' & tr & Hrun & Hcalls & Hprogress & _).
    destruct (batch_spec jobs None st Hjobs)
      as (st0 & tr0 & Hrun0 & Hcalls0 & Hprogress0 & _).
    exists st', tr. split_and!; [done| | |done|].
    + by rewrite Hprogress, reports_length.
    + intros k Hk. rewrite Hprogress. by rewrite reports_lookup.
    + exists st0, tr0. split_and!; [done| |done]. by rewrite Hcalls0, Hcalls.
  - intros current total s e w' Hcb. unfold report_progress, try_except, call_callback.
    by rewrite Hcb.
Qed.


(** C10: in one turn of the loop, when the fetcher returns the empty
    string, nothing is stored: the heap is as before, the fetched counter
    keeps its value and the failed counter grows by one. *)
Theorem empty_description_counts_as_failure (jobs : list loc)
    (cb : option callback) (total idx job_index : nat) (job_id : string)
    (fetched failed : nat) (st : state) (w1 w2 : World) (t1 tf : list event) :
  report_progress cb (idx + 1) total st
  = (Ret tt, {| heap := heap st; world := w1 |}, t1) ->
  fetch_linkedin_description job_id w1 = (Ret (Some ""), w2, tf) ->
  process_job jobs cb total idx job_index job_id (fetched, failed) st
  = (Ret (fetched, failed + 1),
     {| heap := heap st;
        world := if idx <? total - 1 then time_sleep LINKEDIN_FETCH_DELAY w2 else w2 |},
     t1 ++ tf ++ (if idx <? total - 1 then [Sleep LINKEDIN_FETCH_DELAY] else [])).
Proof.
  intros Hrep Hfetch. unfold process_job, bind. rewrite Hrep.
  unfold lift_world. simpl. rewrite Hfetch. simpl.
  unfold sleep. destruct (idx <? total - 1); simpl; by rewrite ?app_nil_r.
Qed.

End BatchProperties.

(** ** The theorems at work *)

(** A description that is a number makes the scan raise: [int] has no
    [strip].  So does a URL that is a number, in [re.search]. *)
Example scan_raises_on_numbers :
  job_target (<["site" := PStr "linkedin"]> (<["description" := PInt 5]> ∅))
    = Raise AttributeError
  /\ job_target (<["site" := PStr "linkedin"]> (<["link" := PInt 5]> ∅))
      = Raise TypeError
  /\ job_target (<["site" := PStr "linkedin"]> (<["description" := PNone]>
                  (<["link" := PStr "https://www.linkedin.com/jobs/view/7"]> ∅)))
      = Ret (Some "7").
Proof. split_and!; vm_compute; reflexivity. Qed.

(** Two entries of the list that share one dict: both are selected, the
    fetcher is called for each, and the one dict holds the description. *)
Example shared_dict_fetched_twice :
  let E := Double.net 200 Double.page in
  let run := @fetch_descriptions_for_jobs Double.parser E [0; 0] None
               (Double.start E 0%Q) in
  result_of run = Ret [0; 0]
  /\ fetch_calls (events_of run) = ["1234567890"; "1234567890"]
  /\ heap (state_of run) 0 !! "description" = Some (PStr "Hi")
  /\ sleeps (events_of run) = [1.5%Q].
Proof. split_and!; vm_compute; reflexivity. Qed.

Lemma fetch_descriptions_for_jobs_selects_targets_witness :
  targets Double.objects 0 [0; 1; 2] = [(0, "1234567890")]
  /\ exists st' tr,
       @fetch_descriptions_for_jobs Double.parser (Double.net 200 Double.page)
         [0; 1; 2] None (Double.start (Double.net 200 Double.page) 0%Q)
       = (Ret [0; 1; 2], st', tr)
       /\ fetch_calls tr = ["1234567890"]
       /\ heap st' 1 = Double.record_B /\ heap st' 2 = Double.record_C.
Proof.
  destruct (@fetch_descriptions_for_jobs_selects_targets Double.parser
              (Double.net 200 Double.page) [0; 1; 2] None
              (Double.start (Double.net 200 Double.page) 0%Q))
    as (_ & _ & _ & st' & tr & Hrun & Hcalls & Hframe).
  { repeat constructor; vm_compute; reflexivity. }
  split; [vm_compute; reflexivity|].
  exists st', tr. split_and!.
  - exact Hrun.
  - rewrite Hcalls. vm_compute. reflexivity.
  - apply (Hframe 1 1); [reflexivity|]. right. left. vm_compute. reflexivity.
  - apply (Hframe 2 2); [reflexivity|]. left. vm_compute. reflexivity.
Defined.

Lemma fetch_descriptions_for_jobs_frame_witness :
  exists st' tr,
    @fetch_descriptions_for_jobs Double.parser Double.down
      [0; 1; 2; 3] None (Double.start Double.down 0%Q)
    = (Ret [0; 1; 2; 3], st', tr)
    /\ heap st' = Double.objects
    /\ last tr = Some (Log INFO "LinkedIn descriptions: 0 fetched, 2 failed out of 2 total").
Proof.
  destruct (@fetch_descriptions_for_jobs_frame Double.parser Double.down
              [0; 1; 2; 3] None (Double.start Double.down 0%Q))
    as (st' & tr & Hrun & _ & _ & Hnone).
  { repeat constructor; vm_compute; reflexivity. }
  exists st', tr. split; [exact Hrun|].
  destruct Hnone as [Hheap Hlast].
  { intros [|c job_id] w r w' t _; simpl; intros [= <- _ _]; reflexivity. }
  split; [exact Hheap|]. rewrite Hlast; [|vm_compute; discriminate].
  vm_compute. reflexivity.
Defined.

Lemma fetch_descriptions_for_jobs_pacing_witness :
  exists st' tr,
    @fetch_descriptions_for_jobs Double.parser (Double.net 200 Double.page)
      [0; 1; 2; 3; 0] None (Double.start (Double.net 200 Double.page) 0%Q)
    = (Ret [0; 1; 2; 3; 0], st', tr)
    /\ sleeps tr = [1.5%Q; 1.5%Q]
    /\ pace tr = [FetchCall "1234567890"; Sleep 1.5; FetchCall "987"; Sleep 1.5;
                  FetchCall "1234567890"].
Proof.
  destruct (@fetch_descriptions_for_jobs_pacing Double.parser
              (Double.net 200 Double.page) [0; 1; 2; 3; 0] None
              (Double.start (Double.net 200 Double.page) 0%Q))
    as (st' & tr & Hrun & Hsleeps & Hpace & _).
  { repeat constructor; vm_compute; reflexivity. }
  exists st', tr. split_and!.
  - exact Hrun.
  - rewrite Hsleeps. vm_compute. reflexivity.
  - rewrite Hpace. vm_compute. reflexivity.
Defined.

Lemma fetch_descriptions_for_jobs_progress_witness :
  exists st' tr,
    @fetch_descriptions_for_jobs Double.parser (Double.net 200 Double.page)
      [0; 1; 2; 3] (Some Double.failing_callback)
      (Double.start (Double.net 200 Double.page) 0%Q)
    = (Ret [0; 1; 2; 3], st', tr)
    /\ progress_calls tr !! 0 = Some (1, 2) /\ progress_calls tr !! 1 = Some (2, 2)
    /\ length (progress_calls tr) = 2
    /\ fetch_calls tr = ["1234567890"; "987"].
Proof.
  destruct (@fetch_descriptions_for_jobs_progress Double.parser
              (Double.net 200 Double.page) [0; 1; 2; 3] Double.failing_callback
              (Double.start (Double.net 200 Double.page) 0%Q))
    as [(st' & tr & Hrun & Hlen & Hlookup & Hcalls & _) _].
  { repeat constructor; vm_compute; reflexivity. }
  exists st', tr. split_and!.
  - exact Hrun.
  - apply (Hlookup 0). vm_compute. lia.
  - apply (Hlookup 1). vm_compute. lia.
  - rewrite Hlen. vm_compute. reflexivity.
  - rewrite Hcalls. vm_compute. reflexivity.
Defined.

Lemma empty_description_counts_as_failure_witness :
  @process_job Double.parser (Double.net 200 Double.blank_page)
    [0] None 1 0 0 "1234567890" (0, 0)
    (Double.start (Double.net 200 Double.blank_page) 0%Q)
  = (Ret (0, 1),
     Double.start (Double.net 200 Double.blank_page) 0%Q,
     [FetchCall "1234567890";
      HttpGet "https://www.linkedin.com/jobs-guest/jobs/api/jobPosting/1234567890"]).
Proof.
  apply (@empty_description_counts_as_failure Double.parser
           (Double.net 200 Double.blank_page) [0] None 1 0 0 "1234567890" 0 0
           (Double.start (Double.net 200 Double.blank_page) 0%Q)
           (0%Q : @World (Double.net 200 Double.blank_page))
           (0%Q : @World (Double.net 200 Double.blank_page)) []
           [FetchCall "1234567890";
            HttpGet "https://www.linkedin.com/jobs-guest/jobs/api/jobPosting/1234567890"]).
  - reflexivity.
  - vm_compute. reflexivity.
Defined.

(** * Further properties *)

(** ** The extractor *)

Lemma first_match_occurs (ps : list string) (url d : string) :
  first_match ps url = Some d ->
  d <> "" /\ all_digits d = true /\ occurs_in d url.
Proof.
  intros Hm. pose proof (first_match_spec ps url) as Hspec. rewrite Hm in Hspec.
  destruct Hspec as (k & p & _ & (before & s & -> & (after & -> & Hne & Hd & _) & _) & _).
  split_and!; [done..|]. exists (before +:+ p), after. by rewrite !app_assoc_str.
Qed.

(** X1: an identifier that [extract_linkedin_job_id] returns is a
    non-empty run of decimal digits that occurs in the URL. *)
Theorem extract_linkedin_job_id_digits (url job_id : string) :
  extract_linkedin_job_id (PStr url) = Ret (Some job_id) ->
  job_id <> "" /\ all_digits job_id = true /\ occurs_in job_id url.
Proof.
  rewrite extract_is_first_match. intros [= Hm].
  exact (first_match_occurs patterns url job_id Hm).
Qed.

Lemma extract_linkedin_job_id_digits_witness :
  "987" <> "" /\ all_digits "987" = true
  /\ occurs_in "987" "https://www.linkedin.com/jobs/search/?currentJobId=987&x=1".
Proof.
  apply (extract_linkedin_job_id_digits
           "https://www.linkedin.com/jobs/search/?currentJobId=987&x=1" "987").
  vm_compute. reflexivity.
Defined.

Lemma search_skip (p : string) (c : ascii) (s : string) :
  Re.match_here p (String c s) = None -> Re.search p (String c s) = Re.search p s.
Proof. intros Hm. cbn [Re.search]. by rewrite Hm. Qed.

Lemma search_here (p s d : string) :
  Re.match_here p s = Some d -> Re.search p s = Some d.
Proof. intros Hm. destruct s; cbn [Re.search]; by rewrite Hm. Qed.

Lemma match_here_digits (p d rest : string) :
  d <> "" -> all_digits d = true -> starts_with_digit rest = false ->
  Re.match_here p (p +:+ d +:+ rest) = Some d.
Proof. intros Hne Hd Hrest. apply match_here_Some. by exists rest. Qed.

(** X2: the URL formats of the docstring.  For every non-empty run of
    digits [d] and every continuation that does not start with a digit,
    the job-view URL of [d] on [www.linkedin.com] or [linkedin.com] gives
    back [d]. *)
Theorem extract_linkedin_job_id_job_view_url (d rest : string) :
  d <> "" -> all_digits d = true -> starts_with_digit rest = false ->
  extract_linkedin_job_id
    (PStr ("https://www.linkedin.com/jobs/view/" +:+ d +:+ rest)) = Ret (Some d)
  /\ extract_linkedin_job_id
       (PStr ("https://linkedin.com/jobs/view/" +:+ d +:+ rest)) = Ret (Some d).
Proof.
  intros Hne Hd Hrest.
  pose proof (match_here_digits "/jobs/view/" d rest Hne Hd Hrest) as Hhere.
  split; rewrite extract_is_first_match; unfold patterns; cbn [first_match].
  - change ("https://www.linkedin.com/jobs/view/" +:+ d +:+ rest)
      with ("https://www.linkedin.com" +:+ "/jobs/view/" +:+ d +:+ rest).
    rewrite !app_cons, app_empty_l.
    rewrite !search_skip by reflexivity.
    rewrite (search_here "/jobs/view/" _ d); [done|exact Hhere].
  - change ("https://linkedin.com/jobs/view/" +:+ d +:+ rest)
      with ("https://linkedin.com" +:+ "/jobs/view/" +:+ d +:+ rest).
    rewrite !app_cons, app_empty_l.
    rewrite !search_skip by reflexivity.
    rewrite (search_here "/jobs/view/" _ d); [done|exact Hhere].
Qed.

Lemma extract_linkedin_job_id_job_view_url_witness :
  extract_linkedin_job_id (PStr "https://www.linkedin.com/jobs/view/1234567890?refId=abc")
    = Ret (Some "1234567890")
  /\ extract_linkedin_job_id (PStr "https://linkedin.com/jobs/view/1234567890?refId=abc")
     = Ret (Some "1234567890").
Proof.
  apply (extract_linkedin_job_id_job_view_url "1234567890" "?refId=abc");
    [discriminate|reflexivity|reflexivity].
Defined.

(** ** The normalizer *)

Lemma split_on_nonempty (sep : ascii) (s : string) : PyStr.split_on sep s <> [].
Proof.
  destruct s as [|c s]; simpl; [done|].
  destruct (Ascii.eqb c sep); [done|]. by destruct (PyStr.split_on sep s).
Qed.

Lemma join_cons_head (sep : string) (c : ascii) (p : string) (ps : list string) :
  PyStr.join sep (String c p :: ps) = String c (PyStr.join sep (p :: ps)).
Proof. by destruct ps. Qed.

(** ['\n'.join(s.split('\n')) == s] *)
Lemma join_split_on (s : string) :
  PyStr.join (String "010" "") (PyStr.split_on "010" s) = s.
Proof.
  induction s as [|c s IH]; [done|]. cbn [PyStr.split_on].
  destruct (Ascii.eqb_spec c "010") as [->|Hc].
  - destruct (PyStr.split_on "010" s) as [|p ps] eqn:Hs.
    + by apply split_on_nonempty in Hs.
    + change (PyStr.join (String "010" "") ("" :: p :: ps))
        with (String "010" (PyStr.join (String "010" "") (p :: ps))).
      by rewrite IH.
  - destruct (PyStr.split_on "010" s) as [|p ps] eqn:Hs.
    + by apply split_on_nonempty in Hs.
    + by rewrite join_cons_head, IH.
Qed.

Lemma split_ws_head (c : ascii) (r : string) :
  PyStr.is_space c = false -> PyStr.split_ws (String c r) <> [].
Proof.
  intros Hc. cbn [PyStr.split_ws]. rewrite Hc. destruct r as [|c' r']; [done|].
  destruct (PyStr.is_space c'); [done|]. by destruct (PyStr.split_ws (String c' r')).
Qed.

Lemma split_ws_app_space (a : string) (c : ascii) (b : string) :
  PyStr.is_space c = true ->
  PyStr.split_ws (a +:+ String c b) = PyStr.split_ws a ++ PyStr.split_ws b.
Proof.
  intros Hc. induction a as [|x a IH].
  - rewrite app_empty_l. cbn [PyStr.split_ws]. by rewrite Hc.
  - rewrite app_cons. cbn [PyStr.split_ws].
    destruct (PyStr.is_space x) eqn:Hx; [done|].
    destruct a as [|y a'].
    + rewrite app_empty_l, Hc. cbn [PyStr.split_ws]. by rewrite Hc.
    + rewrite app_cons. rewrite app_cons in IH.
      destruct (PyStr.is_space y) eqn:Hy.
      * by rewrite IH.
      * rewrite IH. pose proof (split_ws_head y a' Hy) as Hne.
        by destruct (PyStr.split_ws (String y a')).
Qed.

Lemma split_ws_join_lines (ls : list string) :
  PyStr.split_ws (PyStr.join (String "010" "") ls) = concat (map PyStr.split_ws ls).
Proof.
  induction ls as [|l ls IH]; [done|].
  destruct ls as [|l' ls'].
  - simpl. by rewrite app_nil_r.
  - change (PyStr.join (String "010" "") (l :: l' :: ls'))
      with (l +:+ String "010" (PyStr.join (String "010" "") (l' :: ls'))).
    rewrite split_ws_app_space by done. by rewrite IH.
Qed.

Lemma join_words_empty (ws : list string) :
  Forall word ws -> PyStr.join " " ws = "" -> ws = [].
Proof.
  intros Hws Hj. destruct Hws as [|w ws [Hne _] Hws]; [done|].
  exfalso. destruct w as [|c w]; [done|]. by destruct ws.
Qed.

Lemma kept_lines_words (ls : list string) :
  concat (map PyStr.split_ws
            (filter (fun line => negb (PyStr.is_empty line) = true)
                    (map (fun line => PyStr.join " " (PyStr.split_ws line)) ls)))
  = concat (map PyStr.split_ws ls).
Proof.
  induction ls as [|l ls IH]; [done|]. cbn [map].
  destruct (PyStr.join " " (PyStr.split_ws l)) as [|c r] eqn:Hl.
  - rewrite filter_cons_False by (simpl; congruence).
    apply join_words_empty in Hl; [|apply split_ws_words].
    cbn [concat]. by rewrite Hl, IH.
  - rewrite filter_cons_True by done. cbn [map concat].
    rewrite <- Hl, split_ws_join by apply split_ws_words. by rewrite IH.
Qed.

Lemma normalize_whitespace_words (text : string) :
  PyStr.split_ws (normalize_whitespace text) = PyStr.split_ws text.
Proof.
  rewrite normalize_whitespace_kept, split_ws_join_lines. unfold kept_lines.
  rewrite kept_lines_words, <- split_ws_join_lines. by rewrite join_split_on.
Qed.

Lemma normalize_whitespace_normalized (text : string) :
  normalized (normalize_whitespace text).
Proof.
  rewrite normalize_whitespace_kept. pose proof (kept_lines_clean text) as Hclean.
  destruct (kept_lines text) as [|l ls] eqn:Hk; [by split; [|left]|].
  split.
  - apply tidy_strip, join_tidy; [done|].
    eapply Forall_impl; [exact Hclean|]. apply clean_line_tidy.
  - right. rewrite split_on_join; [done..|].
    eapply Forall_impl; [exact Hclean|]. apply clean_line_no_newline.
Qed.

Lemma split_ws_nil_lstrip (s : string) :
  PyStr.split_ws s = [] -> PyStr.lstrip s = "".
Proof.
  induction s as [|c r IH]; [done|]. intros Hw.
  destruct (PyStr.is_space c) eqn:Hc.
  - simpl in *. rewrite Hc in *. by apply IH.
  - by apply split_ws_head in Hw.
Qed.

Lemma normalize_whitespace_empty (text : string) :
  normalize_whitespace text = "" <-> PyStr.split_ws text = [].
Proof.
  split.
  - intros Hn. by rewrite <- normalize_whitespace_words, Hn.
  - intros Hw. destruct (normalize_whitespace_normalized text) as [Hstrip _].
    rewrite <- normalize_whitespace_words in Hw.
    apply split_ws_nil_lstrip in Hw. unfold PyStr.strip in Hstrip.
    by rewrite Hw in Hstrip.
Qed.

Section NormalizerOutput.
Context `{HtmlParser}.

(** X3: whatever the markup, [clean_html_text] raises only what the
    parser raises on a non-empty input, and a text it returns is
    normalized: stripping it changes nothing, and it is empty or each of
    its lines is a non-empty sequence of words separated by single
    spaces. *)
Theorem clean_html_text_normalized (html_content : string) :
  match clean_html_text html_content with
  | Ret text => normalized text
  | Raise e => html_content <> "" /\ BeautifulSoup html_content = Raise e
  end.
Proof.
  unfold clean_html_text. destruct html_content as [|c s]; [by split; [|left]|].
  simpl. destruct (BeautifulSoup (String c s)) as [soup|e]; [|done].
  apply normalize_whitespace_normalized.
Qed.

(** X4: normalizing changes whitespace only.  For markup the parser
    accepts, the words of the returned text are the words of the text of
    the edited document, in order; the returned text is empty exactly
    when that text has no word. *)
Theorem clean_html_text_preserves_words (html_content : string) (soup : Soup) :
  html_content <> "" -> BeautifulSoup html_content = Ret soup ->
  exists text,
    clean_html_text html_content = Ret text
    /\ PyStr.split_ws text = PyStr.split_ws (get_text (rewrite_breaks soup))
    /\ (text = "" <-> PyStr.split_ws (get_text (rewrite_breaks soup)) = []).
Proof.
  intros Hne Hsoup. exists (normalize_whitespace (get_text (rewrite_breaks soup))).
  split_and!.
  - unfold clean_html_text. apply is_empty_false in Hne. by rewrite Hne, Hsoup.
  - apply normalize_whitespace_words.
  - apply normalize_whitespace_empty.
Qed.

Lemma clean_html_text_Ret (markup text : string) :
  clean_html_text markup = Ret text -> normalized text.
Proof.
  unfold clean_html_text. destruct (PyStr.is_empty markup).
  - intros [= <-]. by split; [|left].
  - destruct (BeautifulSoup markup) as [soup|e]; [|done].
    intros [= <-]. apply normalize_whitespace_normalized.
Qed.

End NormalizerOutput.

Lemma clean_html_text_preserves_words_witness :
  exists text,
    @clean_html_text Double.parser "  Senior   Engineer " = Ret text
    /\ PyStr.split_ws text = ["Senior"; "Engineer"]
    /\ (text = "" <-> ["Senior"; "Engineer"] = []).
Proof.
  apply (@clean_html_text_preserves_words Double.parser "  Senior   Engineer "
           {| Double.doc_text := "  Senior   Engineer "; Double.doc_classes := [] |});
    [discriminate|reflexivity].
Defined.

(** ** Plain text that is already clean *)

Lemma split_ws_all_space (v : string) : all_space v = true -> PyStr.split_ws v = [].
Proof.
  induction v as [|c v IH]; [done|]. simpl.
  intros [Hc Hv]%andb_true_iff. rewrite Hc. by apply IH.
Qed.

Lemma line_words_cons_space (c : ascii) (t : string) :
  PyStr.is_space c = true -> line_words (String c t) = line_words t.
Proof.
  intros Hc. unfold line_words. cbn [PyStr.split_on].
  destruct (Ascii.eqb c "010").
  - cbn [map]. by rewrite filter_cons_False by (intros Hne; by apply Hne).
  - destruct (PyStr.split_on "010" t) as [|p ps] eqn:Hs.
    + by apply split_on_nonempty in Hs.
    + cbn [map PyStr.split_ws]. by rewrite Hc.
Qed.

Lemma line_words_prefix (u t : string) :
  all_space u = true -> line_words (u +:+ t) = line_words t.
Proof.
  induction u as [|c u IH]; [done|]. cbn [all_space].
  intros [Hc Hu]%andb_true_iff. rewrite app_cons, line_words_cons_space by done.
  by apply IH.
Qed.

Lemma split_on_snoc_newline (t : string) :
  PyStr.split_on "010" (t +:+ String "010" "") = PyStr.split_on "010" t ++ [""].
Proof.
  induction t as [|x t IH]; [done|]. rewrite app_cons. cbn [PyStr.split_on].
  rewrite IH. destruct (Ascii.eqb x "010"); [done|].
  destruct (PyStr.split_on "010" t) as [|p ps] eqn:Hs; [|done].
  by apply split_on_nonempty in Hs.
Qed.

Lemma split_on_snoc_other (t : string) (c : ascii) :
  Ascii.eqb c "010" = false ->
  exists init last,
    PyStr.split_on "010" t = init ++ [last]
    /\ PyStr.split_on "010" (t +:+ String c "") = init ++ [last +:+ String c ""].
Proof.
  intros Hc. induction t as [|x t (init & last & Ht & Htc)].
  - exists [], "". split; [done|]. rewrite !app_empty_l. cbn [PyStr.split_on].
    by rewrite Hc.
  - rewrite app_cons. cbn [PyStr.split_on]. rewrite Ht, Htc.
    destruct (Ascii.eqb x "010").
    + by exists ("" :: init), last.
    + destruct init as [|p ps].
      * by exists [], (String x last).
      * by exists (String x p :: ps), last.
Qed.

Lemma line_words_snoc_space (t : string) (c : ascii) :
  PyStr.is_space c = true -> line_words (t +:+ String c "") = line_words t.
Proof.
  intros Hc. unfold line_words. destruct (Ascii.eqb_spec c "010") as [->|Hne].
  - rewrite split_on_snoc_newline, map_app, filter_app. cbn [map PyStr.split_ws].
    rewrite (filter_cons_False _ []) by (intros Hn; by apply Hn).
    by rewrite app_nil_r.
  - destruct (split_on_snoc_other t c) as (init & last & -> & ->).
    { by apply Ascii.eqb_neq. }
    rewrite !map_app. cbn [map]. rewrite split_ws_app_space by done.
    by rewrite app_nil_r.
Qed.

Lemma line_words_suffix (t u : string) :
  all_space u = true -> line_words (t +:+ u) = line_words t.
Proof.
  revert t. induction u as [|c u IH]; intros t; [by rewrite app_empty_r|].
  cbn [all_space]. intros [Hc Hu]%andb_true_iff.
  replace (t +:+ String c u) with ((t +:+ String c "") +:+ u)
    by (by rewrite app_assoc_str).
  rewrite IH by done. by apply line_words_snoc_space.
Qed.

Lemma lstrip_decompose (s : string) :
  exists u, s = u +:+ PyStr.lstrip s /\ all_space u = true.
Proof.
  induction s as [|c s (u & Hs & Hu)]; [by exists ""|]. cbn [PyStr.lstrip].
  destruct (PyStr.is_space c) eqn:Hc.
  - exists (String c u). rewrite app_cons. split; [by f_equal|]. simpl. by rewrite Hc.
  - by exists "".
Qed.

Lemma rstrip_decompose (s : string) :
  exists u, s = PyStr.rstrip s +:+ u /\ all_space u = true.
Proof.
  induction s as [|c s (u & Hs & Hu)]; [by exists ""|]. cbn [PyStr.rstrip].
  destruct (PyStr.is_space c && PyStr.is_empty (PyStr.rstrip s)) eqn:Hcase.
  - apply andb_true_iff in Hcase as [Hc He]. apply is_empty_true in He.
    rewrite He, app_empty_l in Hs. subst u.
    exists (String c s). split; [done|]. simpl. by rewrite Hc.
  - exists u. rewrite app_cons. split; [by f_equal|done].
Qed.

Lemma line_words_strip (s : string) : line_words (PyStr.strip s) = line_words s.
Proof.
  unfold PyStr.strip.
  destruct (lstrip_decompose s) as (u & Hs & Hu).
  destruct (rstrip_decompose (PyStr.lstrip s)) as (v & Hl & Hv).
  rewrite Hs at 2. rewrite line_words_prefix by done.
  rewrite Hl at 2. by rewrite line_words_suffix.
Qed.

Lemma clean_line_words (l : string) : clean_line l -> PyStr.split_ws l <> [].
Proof. intros (ws & Hne & Hws & ->). by rewrite split_ws_join. Qed.

Lemma line_words_join (ls : list string) :
  Forall clean_line ls ->
  line_words (PyStr.join (String "010" "") ls) = map PyStr.split_ws ls.
Proof.
  intros Hls. unfold line_words. destruct ls as [|l ls']; [done|].
  rewrite split_on_join; [|done|].
  - induction Hls as [|x xs Hx Hxs IH]; [done|]. cbn [map].
    rewrite filter_cons_True by by apply clean_line_words. by rewrite IH.
  - eapply Forall_impl; [exact Hls|]. apply clean_line_no_newline.
Qed.

Lemma kept_lines_line_words (ls : list string) :
  map PyStr.split_ws
      (filter (fun line => negb (PyStr.is_empty line) = true)
              (map (fun line => PyStr.join " " (PyStr.split_ws line)) ls))
  = filter (fun ws => ws <> []) (map PyStr.split_ws ls).
Proof.
  induction ls as [|l ls IH]; [done|]. cbn [map].
  destruct (PyStr.join " " (PyStr.split_ws l)) as [|c r] eqn:Hl.
  - rewrite filter_cons_False by (simpl; congruence).
    apply join_words_empty in Hl; [|apply split_ws_words].
    rewrite Hl. by rewrite filter_cons_False by (intros Hn; by apply Hn).
  - rewrite filter_cons_True by done. cbn [map].
    rewrite <- Hl, split_ws_join by apply split_ws_words.
    rewrite filter_cons_True; [by rewrite IH|].
    intros Hnil. by rewrite Hnil in Hl.
Qed.

Lemma line_words_normalize (text : string) :
  line_words (normalize_whitespace text) = line_words text.
Proof.
  rewrite normalize_whitespace_kept, line_words_join by apply kept_lines_clean.
  apply kept_lines_line_words.
Qed.

Lemma normalized_render (text : string) :
  normalized text -> text = render (line_words text).
Proof.
  intros [_ [->|Hlines]]; [done|].
  rewrite <- (join_split_on text) at 1. unfold render, line_words. f_equal.
  induction Hlines as [|l ls Hl Hls IH]; [done|]. cbn [map].
  rewrite filter_cons_True by by apply clean_line_words. cbn [map].
  by rewrite clean_line_fixed, <- IH.
Qed.

Section CleanPlainText.
Context `{HtmlParser}.

(** C6, as amended: for every plain text that the parser reads back as
    it is (no tag, no character reference), [clean_html_text] returns a
    normalized text (stripped, no empty line, words separated by single
    spaces) with the words of each line of the input that holds a word;
    when the trimmed input is already normalized, what is returned is the
    input trimmed. *)
Theorem clean_html_text_idempotent_on_clean_plain_text (s : string) :
  plain_text s ->
  exists text,
    clean_html_text s = Ret text
    /\ normalized text
    /\ line_words text = line_words s
    /\ (normalized (PyStr.strip s) -> text = PyStr.strip s).
Proof.
  intros Hs. exists (normalize_whitespace s). split_and!.
  - by apply clean_html_text_plain.
  - apply normalize_whitespace_normalized.
  - apply line_words_normalize.
  - intros Hclean.
    rewrite (normalized_render _ (normalize_whitespace_normalized s)).
    rewrite (normalized_render _ Hclean).
    by rewrite line_words_normalize, line_words_strip.
Qed.

End CleanPlainText.

Lemma clean_html_text_idempotent_on_clean_plain_text_witness :
  @clean_html_text Double.parser "  Senior Engineer " = Ret "Senior Engineer"
  /\ @clean_html_text Double.parser "Senior Engineer" = Ret "Senior Engineer".
Proof.
  assert (normalized "Senior Engineer") as Hclean.
  { split; [reflexivity|]. right. constructor; [|constructor].
    exists ["Senior"; "Engineer"]. split; [discriminate|]. split; [|reflexivity].
    repeat constructor; discriminate. }
  split.
  - destruct (@clean_html_text_idempotent_on_clean_plain_text Double.parser
                "  Senior Engineer ") as (text & Hrun & _ & _ & Htrim).
    { exists {| Double.doc_text := "  Senior Engineer "; Double.doc_classes := [] |}.
      repeat split; reflexivity. }
    rewrite Hrun. f_equal. apply Htrim. exact Hclean.
  - destruct (@clean_html_text_idempotent_on_clean_plain_text Double.parser
                "Senior Engineer") as (text & Hrun & _ & _ & Htrim).
    { exists {| Double.doc_text := "Senior Engineer"; Double.doc_classes := [] |}.
      repeat split; reflexivity. }
    rewrite Hrun. f_equal. apply Htrim. exact Hclean.
Defined.

(** A text without tags that is not plain text: the parser drops the
    ampersand of [AT&T], so what is returned is not the input trimmed. *)
Example ampersand_is_not_plain_text :
  @find_all Ampersand.parser
     {| Double.doc_text := "ATT"; Double.doc_classes := [] |} "br" = []
  /\ @BeautifulSoup Ampersand.parser "AT&T"
     = Ret {| Double.doc_text := "ATT"; Double.doc_classes := [] |}
  /\ @clean_html_text Ampersand.parser "AT&T" = Ret "ATT"
  /\ PyStr.strip "AT&T" = "AT&T".
Proof. split_and!; reflexivity. Qed.

(** ** The fetcher, further *)

Lemma logs_only_ret {S A} (a : A) : logs_only (@ret S A a).
Proof. by intros s. Qed.

Lemma logs_only_log {S} (lv : level) (msg : string) : logs_only (@log S lv msg).
Proof. by intros s. Qed.

Lemma logs_only_lift_outcome {S A} (o : outcome A) : logs_only (@lift_outcome S A o).
Proof. by intros s. Qed.

Lemma logs_only_bind {S A B} (m : M S A) (k : A -> M S B) :
  logs_only m -> (forall a, logs_only (k a)) -> logs_only (bind m k).
Proof.
  intros Hm Hk s. unfold bind. specialize (Hm s).
  destruct (m s) as [[[a|e] s'] t]; [|done].
  specialize (Hk a s'). destruct (k a s') as [[r s''] t'].
  unfold events_of in *. simpl in *. rewrite forallb_app. by rewrite Hm, Hk.
Qed.

Lemma bind_logs {S A B} (m : M S A) (k : A -> M S B) (s s1 : S) (a : A)
    (t1 : list event) :
  (forall a, logs_only (k a)) -> m s = (Ret a, s1, t1) ->
  exists r s2 t2, bind m k s = (r, s2, t1 ++ t2) /\ forallb is_log t2 = true.
Proof.
  intros Hk Hm. unfold bind. rewrite Hm. specialize (Hk a s1).
  destruct (k a s1) as [[r s2] t2]. by eexists _, _, _.
Qed.

Create HintDb logs.
#[local] Hint Resolve logs_only_ret logs_only_log logs_only_lift_outcome
  logs_only_bind : logs.

Section FetchFurther.
Context `{HtmlParser} `{Environment}.

Lemma logs_only_parse_description (job_id body : string) :
  logs_only (parse_description job_id body).
Proof.
  unfold parse_description. apply logs_only_bind; [auto with logs|].
  intros soup. destruct (find_class soup _); [auto with logs|].
  destruct (first_container soup _); auto with logs.
Qed.

Lemma logs_only_fetch_handler (job_id : string) (e : exn) :
  logs_only (fetch_handler job_id e).
Proof. destruct e; simpl; auto with logs. Qed.

Lemma fetch_body_events (job_id url : string) (w : World) :
  exists r w' logs,
    fetch_body job_id url w = (r, w', HttpGet url :: logs)
    /\ forallb is_log logs = true.
Proof.
  unfold fetch_body.
  destruct (requests_get url w) as [[resp|e] w1] eqn:Hget.
  - match goal with
    | |- context [bind (http_get url) ?k] =>
        destruct (bind_logs (http_get url) k w w1 resp [HttpGet url])
          as (r & w2 & t2 & -> & Hlogs)
    end.
    + intros response.
      repeat case_match; auto using logs_only_parse_description with logs.
    + unfold http_get. by rewrite Hget.
    + by eexists _, _, _.
  - unfold bind, http_get. rewrite Hget. by eexists _, _, [].
Qed.

(** A call with an identifier: the call, one request, then log records. *)
Lemma fetch_trace (job_id : string) (w : World) :
  job_id <> "" ->
  exists r w' logs,
    fetch_linkedin_description job_id w
    = (Ret r, w', FetchCall job_id :: HttpGet (guest_api_url job_id) :: logs)
    /\ forallb is_log logs = true.
Proof.
  intros Hne. rewrite fetch_unfold by done. unfold try_except.
  destruct (fetch_body_events job_id (guest_api_url job_id) w)
    as (r & w1 & logs & -> & Hlogs).
  destruct r as [r|e]; [by eexists _, _, _|].
  pose proof (logs_only_fetch_handler job_id e w1) as Hh.
  destruct (fetch_handler_returns job_id e w1) as (lv & msg & Heq).
  rewrite Heq in *. eexists _, _, _. split; [reflexivity|].
  rewrite forallb_app. by rewrite Hlogs.
Qed.

(** X5: a call of the fetcher makes at most one HTTP request and never
    retries: its trace is the call, then, unless the identifier is empty,
    one request to the endpoint of that identifier, then log records
    only.  With an empty identifier it returns no result at once and the
    world is untouched. *)
Theorem fetch_linkedin_description_one_request (job_id : string) (w : World) :
  exists r w' logs,
    fetch_linkedin_description job_id w
    = (Ret r, w',
       FetchCall job_id
       :: (if PyStr.is_empty job_id then [] else [HttpGet (guest_api_url job_id)])
       ++ logs)
    /\ forallb is_log logs = true
    /\ (job_id = "" -> r = None /\ w' = w /\ logs = []).
Proof.
  destruct (decide (job_id = "")) as [->|Hne].
  - by eexists None, w, [].
  - destruct (fetch_trace job_id w Hne) as (r & w' & logs & Hrun & Hlogs).
    exists r, w', logs. apply is_empty_false in Hne as Hemp. rewrite Hemp.
    by split_and!.
Qed.

Lemma parse_description_Some (job_id body d : string) (w w' : World) (t : list event) :
  parse_description job_id body w = (Ret (Some d), w', t) -> normalized d.
Proof.
  unfold parse_description, bind, lift_outcome, log, emit, ret.
  destruct (BeautifulSoup body) as [soup|e]; [|done].
  destruct (find_class soup _) as [el|].
  - destruct (clean_html_text (tag_str soup el)) as [text|e] eqn:Hc; [|done].
    intros [= <- _ _]. by eapply clean_html_text_Ret.
  - destruct (first_container soup _) as [el|]; [|done].
    destruct (clean_html_text (tag_str soup el)) as [text|e] eqn:Hc; [|done].
    intros [= <- _ _]. by eapply clean_html_text_Ret.
Qed.

Lemma fetch_body_Some (job_id url d : string) (w w' : World) (t : list event) :
  fetch_body job_id url w = (Ret (Some d), w', t) -> normalized d.
Proof.
  unfold fetch_body, bind at 1, http_get.
  destruct (requests_get url w) as [[resp|e] w1]; [|done].
  destruct (status_code resp =? 429)%Z; [done|].
  destruct (status_code resp =? 404)%Z; [done|].
  destruct (negb (status_code resp =? 200)%Z); [done|].
  destruct (parse_description job_id (text resp) w1) as [[r w2] t2] eqn:Hp.
  intros [= -> _ _]. by eapply parse_description_Some.
Qed.

Lemma fetch_Some (job_id d : string) (w w' : World) (t : list event) :
  fetch_linkedin_description job_id w = (Ret (Some d), w', t) -> normalized d.
Proof.
  destruct (decide (job_id = "")) as [->|Hne]; [done|].
  rewrite fetch_unfold by done. unfold try_except.
  destruct (fetch_body job_id (guest_api_url job_id) w) as [[[r|e] w1] t1] eqn:Hb.
  - intros [= -> _ _]. by eapply fetch_body_Some.
  - destruct (fetch_handler_returns job_id e w1) as (lv & msg & ->). done.
Qed.

(** X6: a description the fetcher returns is a normalized text: it has
    no leading or trailing whitespace, and it is empty or each of its
    lines is a non-empty sequence of words separated by single spaces. *)
Theorem fetch_linkedin_description_normalized (job_id : string) (w : World) :
  exists r w' t,
    fetch_linkedin_description job_id w = (Ret r, w', t)
    /\ forall d, r = Some d -> normalized d.
Proof.
  destruct (fetch_events job_id w) as (r & w' & t & Hrun & _).
  exists r, w', (FetchCall job_id :: t). split; [done|].
  intros d ->. by eapply fetch_Some.
Qed.

Lemma first_container_lookup (soup : Soup) (selectors : list string) (k : nat)
    (selector : string) (el : Tag) :
  selectors !! k = Some selector ->
  (forall j s, j < k -> selectors !! j = Some s -> find_class soup s = None) ->
  find_class soup selector = Some el ->
  first_container soup selectors = Some el.
Proof.
  revert k. induction selectors as [|s0 rest IH]; intros k Hk Hbefore Hfound; [done|].
  destruct k as [|k]; simpl in *.
  - injection Hk as ->. by rewrite Hfound.
  - rewrite (Hbefore 0 s0) by (done || lia).
    apply (IH k); [done| |done].
    intros j s Hj Hs. apply (Hbefore (S j)); [lia|done].
Qed.

Lemma first_container_none (soup : Soup) (selectors : list string) :
  (forall s, s ∈ selectors -> find_class soup s = None) ->
  first_container soup selectors = None.
Proof.
  induction selectors as [|s0 rest IH]; intros Hnone; [done|]. simpl.
  rewrite Hnone by left. apply IH. intros s Hs. apply Hnone. by right.
Qed.

(** X7: a 200 response without the primary container.  The fallback
    classes [description__text], [job-description], [description] are
    tried in this order: the first one the document has gives the
    description, normalized, whatever the later ones hold; when the
    document has none of them the fetcher returns no result and logs one
    DEBUG record. *)
Theorem fetch_linkedin_description_fallback (job_id : string) (w w' : World)
    (resp : response) (soup : Soup) :
  job_id <> "" ->
  requests_get (guest_api_url job_id) w = (Ret resp, w') ->
  status_code resp = 200%Z ->
  BeautifulSoup (text resp) = Ret soup ->
  find_class soup primary_container = None ->
  (forall k selector desc_element d,
     [ "description__text"; "job-description"; "description" ] !! k = Some selector ->
     (forall j s, j < k ->
        [ "description__text"; "job-description"; "description" ] !! j = Some s ->
        find_class soup s = None) ->
     find_class soup selector = Some desc_element ->
     clean_html_text (tag_str soup desc_element) = Ret d ->
     fetch_linkedin_description job_id w
     = (Ret (Some d), w', [FetchCall job_id; HttpGet (guest_api_url job_id)]))
  /\ ((forall s, s ∈ [ "description__text"; "job-description"; "description" ] ->
                 find_class soup s = None) ->
      fetch_linkedin_description job_id w
      = (Ret None, w',
         [FetchCall job_id; HttpGet (guest_api_url job_id);
          Log DEBUG ("No description found in response for job " +:+ job_id)])).
Proof.
  intros Hne Hget H200 Hsoup Hprimary.
  assert (fetch_linkedin_description job_id w =
          let '(r, w'', t) := try_except (parse_description job_id (text resp))
                                         (fetch_handler job_id) w' in
          (r, w'', FetchCall job_id :: HttpGet (guest_api_url job_id) :: t)) as ->.
  { rewrite fetch_unfold by done. unfold try_except.
    rewrite (fetch_body_status _ _ _ _ Hget), H200. simpl.
    destruct (parse_description job_id (text resp) w') as [[[r|e] w''] t]; [done|].
    by destruct (fetch_handler job_id e w'') as [[r' w3] t']. }
  unfold try_except, parse_description, bind, lift_outcome.
  rewrite Hsoup. unfold primary_container in Hprimary. rewrite Hprimary.
  split.
  - intros k selector el d Hk Hbefore Hfound Hclean.
    rewrite (first_container_lookup soup fallback_selectors k selector el Hk Hbefore Hfound).
    by rewrite Hclean.
  - intros Hnone. by rewrite (first_container_none soup fallback_selectors Hnone).
Qed.

End FetchFurther.

Lemma fetch_linkedin_description_fallback_witness :
  @fetch_linkedin_description OlderLayout.parser (Double.net 200 OlderLayout.page)
    "123" 0%Q
  = (Ret (Some "We build things."), 0%Q,
     [FetchCall "123";
      HttpGet "https://www.linkedin.com/jobs-guest/jobs/api/jobPosting/123"]).
Proof.
  destruct (@fetch_linkedin_description_fallback OlderLayout.parser
              (Double.net 200 OlderLayout.page) "123" 0%Q 0%Q
              {| status_code := 200; text := OlderLayout.page |}
              {| Double.doc_text := "We  build   things.";
                 Double.doc_classes := [("job-description", OlderLayout.container)] |})
    as [Hfound _]; [discriminate|reflexivity|reflexivity|reflexivity|reflexivity|].
  apply (Hfound 1 "job-description" OlderLayout.container "We build things.");
    [reflexivity| |reflexivity|reflexivity].
  intros [|j] s Hj; [intros [= <-]; reflexivity|lia].
Defined.

(** ** The batch, further *)

Lemma logs_no_requests (t : list event) :
  forallb is_log t = true -> http_gets t = [].
Proof.
  induction t as [|e t IH]; [done|]. simpl.
  intros [He Ht]%andb_true_iff. unfold http_gets in *. destruct e; try done.
  simpl. by apply IH.
Qed.

Lemma targets_length (h : loc -> gmap string pyval) (i : nat) (jobs : list loc) :
  length (targets h i jobs) <= length jobs.
Proof.
  revert i. induction jobs as [|l jobs IH]; intros i; simpl; [lia|].
  specialize (IH (S i)). destruct (targeted (h l)); simpl; lia.
Qed.

Lemma targeted_digits (job : gmap string pyval) (job_id : string) :
  targeted job = Some job_id -> job_id <> "" /\ all_digits job_id = true.
Proof.
  intros (_ & _ & Hid)%targeted_conditions. unfold identifier in Hid.
  rewrite extract_is_first_match in Hid.
  destruct (first_match patterns (url_field job)) as [d|] eqn:Hm; [|done].
  injection Hid as <-. by destruct (first_match_occurs _ _ _ Hm) as (? & ? & _).
Qed.

Lemma targets_digits (h : loc -> gmap string pyval) (i : nat) (jobs : list loc) :
  Forall (fun job_id => job_id <> "" /\ all_digits job_id = true) (targets h i jobs).*2.
Proof.
  apply Forall_fmap, Forall_forall. intros [j job_id] (l & _ & _ & Ht)%targets_elem.
  by apply targeted_digits in Ht.
Qed.

Lemma posting_record_described (job : gmap string pyval) (d : string) :
  posting_record job -> posting_record (<["description" := PStr d]> job).
Proof.
  unfold posting_record, is_text_field. intros (Hs & Hd & Hl & Hu).
  rewrite lookup_insert_eq, !lookup_insert_ne by done. done.
Qed.

Lemma described_not_targeted (job : gmap string pyval) (d : string) :
  d <> "" -> normalized d -> targeted (<["description" := PStr d]> job) = None.
Proof.
  intros Hne [Hstrip _]. apply not_targeted_conditions. right. left.
  unfold description_is_blank, field_text. rewrite lookup_insert_eq, Hstrip.
  by apply is_empty_false.
Qed.

Section BatchFurther.
Context `{HtmlParser} `{Environment}.

Lemma report_progress_no_requests (cb : option callback) (current total : nat)
    (st : state) :
  exists w1 t1,
    report_progress cb current total st
    = (Ret tt, {| heap := heap st; world := w1 |}, t1)
    /\ http_gets t1 = [].
Proof.
  destruct cb as [cb|]; simpl.
  - unfold try_except, call_callback.
    destruct (cb current total (world st)) as [[[]|e] w1]; by eexists _, _.
  - destruct st. by eexists _, _.
Qed.

Lemma process_job_further (jobs : list loc) (cb : option callback)
    (total idx job_index : nat) (job_id : string) (counts : nat * nat)
    (st : state) (l : loc) :
  jobs !! job_index = Some l -> job_id <> "" ->
  exists counts' st' tr,
    process_job jobs cb total idx job_index job_id counts st = (Ret counts', st', tr)
    /\ http_gets tr = [guest_api_url job_id]
    /\ (heap st' = heap st
        \/ exists d, d <> "" /\ normalized d /\ heap st' = stored (heap st) l d).
Proof.
  intros Hl Hne. destruct counts as [fetched failed].
  destruct (report_progress_no_requests cb (idx + 1) total st) as (w1 & t1 & Hrep & Hg1).
  destruct (fetch_trace job_id w1 Hne) as (r & w2 & logs & Hfetch & Hlogs).
  pose proof (logs_no_requests logs Hlogs) as Hg2.
  assert (forall d, r = Some d -> normalized d) as Hnorm.
  { intros d ->. by eapply fetch_Some. }
  unfold process_job, bind. rewrite Hrep. unfold lift_world. simpl.
  rewrite Hfetch.
  destruct r as [[|c d]|]; simpl.
  - unfold sleep. destruct (idx <? total - 1); simpl;
      eexists _, _, _; (split; [reflexivity|]); (split; [|by left]);
      unfold http_gets in *; rewrite !omap_app_events; simpl;
      rewrite ?omap_app_events, Hg1, Hg2; done.
  - unfold set_description. rewrite Hl. simpl.
    unfold sleep. destruct (idx <? total - 1); simpl;
      eexists _, _, _; (split; [reflexivity|]);
      (split; [|right; exists (String c d); split_and!; [done|by apply Hnorm|done]]);
      unfold http_gets in *; rewrite !omap_app_events; simpl;
      rewrite ?omap_app_events, Hg1, Hg2; done.
  - unfold sleep. destruct (idx <? total - 1); simpl;
      eexists _, _, _; (split; [reflexivity|]); (split; [|by left]);
      unfold http_gets in *; rewrite !omap_app_events; simpl;
      rewrite ?omap_app_events, Hg1, Hg2; done.
Qed.

Lemma enrich_loop_further (jobs : list loc) (cb : option callback) (total : nat)
    (to_fetch : list (nat * string)) :
  Forall (fun p => is_Some (jobs !! p.1) /\ p.2 <> "") to_fetch ->
  forall (idx : nat) (counts : nat * nat) (st : state),
  exists counts' st' tr,
    enrich_loop jobs cb total idx to_fetch counts st = (Ret counts', st', tr)
    /\ http_gets tr = guest_api_url <$> to_fetch.*2
    /\ forall l,
         heap st' l = heap st l
         \/ exists d, d <> "" /\ normalized d
                      /\ heap st' l = <["description" := PStr d]> (heap st l).
Proof.
  induction 1 as [|[job_index job_id] rest [[l Hl] Hid] Hrest IH]; intros idx counts st.
  - eexists _, _, _. split; [reflexivity|]. split; [done|]. by left.
  - simpl in Hl, Hid.
    destruct (process_job_further jobs cb total idx job_index job_id counts st l Hl Hid)
      as (counts1 & st1 & tr1 & Hstep & Hg1 & Hheap1).
    destruct (IH (S idx) counts1 st1) as (counts2 & st2 & tr2 & Hloop & Hg2 & Hheap2).
    exists counts2, st2, (tr1 ++ tr2). split_and!.
    + cbn [enrich_loop]. unfold bind. by rewrite Hstep, Hloop.
    + unfold http_gets in *. by rewrite omap_app_events, Hg1, Hg2.
    + intros l'. destruct Hheap1 as [Hsame|(d & Hd & Hn & Hstored)].
      * rewrite <- Hsame. apply Hheap2.
      * destruct (Hheap2 l') as [Heq|(d2 & Hd2 & Hn2 & Heq)]; rewrite Heq, Hstored;
          unfold stored; destruct (decide (l' = l)) as [->|Hne].
        -- right. by exists d.
        -- by left.
        -- right. exists d2. by rewrite insert_insert_eq.
        -- right. by exists d2.
Qed.

Lemma targets_valid_ids (h : loc -> gmap string pyval) (jobs : list loc) :
  Forall (fun p => is_Some (jobs !! p.1) /\ p.2 <> "") (targets h 0 jobs).
Proof.
  apply Forall_forall. intros [j job_id] (l & _ & Hl & Ht)%targets_elem.
  rewrite Nat.sub_0_r in Hl. split; [by exists l|].
  by apply targeted_digits in Ht as [? _].
Qed.

(** The run when some record is selected: the note, the loop, the summary. *)
Lemma batch_unfold (jobs : list loc) (cb : option callback) (st : state) :
  Forall (fun l => posting_record (heap st l)) jobs ->
  targets (heap st) 0 jobs <> [] ->
  exists counts st' mid,
    enrich_loop jobs cb (length (targets (heap st) 0 jobs)) 0
                (targets (heap st) 0 jobs) (0, 0) st = (Ret counts, st', mid)
    /\ fetch_descriptions_for_jobs jobs cb st
       = (Ret jobs, st',
          Log INFO ("Fetching descriptions for "
                    +:+ PyStr.of_nat (length (targets (heap st) 0 jobs))
                    +:+ " LinkedIn jobs...")
          :: mid ++ [Log INFO (summary counts.1 counts.2
                                       (length (targets (heap st) 0 jobs)))])
    /\ counts.1 + counts.2 = length (targets (heap st) 0 jobs).
Proof.
  intros Hjobs Hsel.
  destruct (enrich_loop_spec jobs cb (length (targets (heap st) 0 jobs))
              (targets (heap st) 0 jobs) (targets_valid (heap st) jobs) 0 (0, 0) st)
    as (counts & st' & mid & Hloop & _ & _ & _ & _ & _ & _ & Hsum).
  exists counts, st', mid. split_and!; [done| |by rewrite Hsum].
  unfold fetch_descriptions_for_jobs, bind at 1, linkedin_jobs_to_fetch.
  rewrite scan_jobs_targets by done.
  destruct (targets (heap st) 0 jobs) as [|p rest] eqn:Htargets; [done|].
  unfold bind, log, emit, ret. rewrite Hloop.
  rewrite !app_nil_l, !app_nil_r. reflexivity.
Qed.

(** X8: when some record is selected, the run starts with the note of
    how many descriptions it fetches and ends with the summary, whose
    fetched and failed counts add up to the number of selected records. *)
Theorem fetch_descriptions_for_jobs_summary (jobs : list loc)
    (cb : option callback) (st : state) :
  Forall (fun l => posting_record (heap st l)) jobs ->
  targets (heap st) 0 jobs <> [] ->
  exists st' tr fetched_count failed_count,
    fetch_descriptions_for_jobs jobs cb st = (Ret jobs, st', tr)
    /\ head tr = Some (Log INFO ("Fetching descriptions for "
                                 +:+ PyStr.of_nat (length (targets (heap st) 0 jobs))
                                 +:+ " LinkedIn jobs..."))
    /\ last tr = Some (Log INFO (summary fetched_count failed_count
                                         (length (targets (heap st) 0 jobs))))
    /\ fetched_count + failed_count = length (targets (heap st) 0 jobs).
Proof.
  intros Hjobs Hsel.
  destruct (batch_unfold jobs cb st Hjobs Hsel) as (counts & st' & mid & _ & Hrun & Hsum).
  eexists st', _, counts.1, counts.2. split_and!; [exact Hrun|done| |done].
  by rewrite app_comm_cons, last_snoc.
Qed.

(** X9: the HTTP requests of a run are one request per selected record,
    in the order of the list, each to the endpoint of that record's
    identifier; there are at most as many as there are records, and every
    identifier requested is a non-empty run of digits. *)
Theorem fetch_descriptions_for_jobs_requests (jobs : list loc)
    (cb : option callback) (st : state) :
  Forall (fun l => posting_record (heap st l)) jobs ->
  exists st' tr,
    fetch_descriptions_for_jobs jobs cb st = (Ret jobs, st', tr)
    /\ http_gets tr = guest_api_url <$> (targets (heap st) 0 jobs).*2
    /\ length (http_gets tr) <= length jobs
    /\ Forall (fun job_id => job_id <> "" /\ all_digits job_id = true)
              (targets (heap st) 0 jobs).*2.
Proof.
  intros Hjobs.
  assert (exists st' tr,
             fetch_descriptions_for_jobs jobs cb st = (Ret jobs, st', tr)
             /\ http_gets tr = guest_api_url <$> (targets (heap st) 0 jobs).*2)
    as (st' & tr & Hrun & Hgets).
  { destruct (decide (targets (heap st) 0 jobs = [])) as [Hnil|Hsel].
    - destruct (batch_spec jobs cb st Hjobs)
        as (st' & tr & Hrun & _ & _ & _ & _ & _ & _ & Hnone & _).
      destruct (Hnone Hnil) as [_ Htr]. exists st', tr. split; [exact Hrun|].
      by rewrite Htr, Hnil.
    - destruct (batch_unfold jobs cb st Hjobs Hsel)
        as (counts & st' & mid & Hloop & Hrun & _).
      destruct (enrich_loop_further jobs cb (length (targets (heap st) 0 jobs))
                  (targets (heap st) 0 jobs) (targets_valid_ids (heap st) jobs)
                  0 (0, 0) st) as (counts2 & st2 & mid2 & Hloop2 & Hgets & _).
      rewrite Hloop in Hloop2. injection Hloop2 as <- <- <-.
      eexists st', _. split; [exact Hrun|].
      unfold http_gets in *. rewrite app_comm_cons, omap_app_events.
      change (omap ?f (?a :: mid)) with (omap f ([a] ++ mid)).
      rewrite omap_app_events, Hgets. cbn [omap app]. by rewrite app_nil_r. }
  exists st', tr. split_and!; [done..| |apply targets_digits].
  rewrite Hgets, !length_fmap. apply targets_length.
Qed.

(** X10: running the batch again.  After a run every record is still a
    posting record, and a record that a second run would select was
    selected by the first run, with the same identifier, and its dict is
    as it was before the first run: a record that got a description is
    never fetched again. *)
Theorem fetch_descriptions_for_jobs_rerun (jobs : list loc)
    (cb : option callback) (st : state) :
  Forall (fun l => posting_record (heap st l)) jobs ->
  exists st' tr,
    fetch_descriptions_for_jobs jobs cb st = (Ret jobs, st', tr)
    /\ Forall (fun l => posting_record (heap st' l)) jobs
    /\ forall i job_id,
         (i, job_id) ∈ targets (heap st') 0 jobs ->
         (i, job_id) ∈ targets (heap st) 0 jobs
         /\ exists l, jobs !! i = Some l /\ heap st' l = heap st l.
Proof.
  intros Hjobs.
  assert (exists st' tr,
             fetch_descriptions_for_jobs jobs cb st = (Ret jobs, st', tr)
             /\ forall l,
                  heap st' l = heap st l
                  \/ exists d, d <> "" /\ normalized d
                               /\ heap st' l = <["description" := PStr d]> (heap st l))
    as (st' & tr & Hrun & Hheap).
  { destruct (decide (targets (heap st) 0 jobs = [])) as [Hnil|Hsel].
    - destruct (batch_spec jobs cb st Hjobs)
        as (st' & tr & Hrun & _ & _ & _ & _ & _ & _ & Hnone & _).
      destruct (Hnone Hnil) as [-> _]. exists st, tr. split; [done|]. by left.
    - destruct (batch_unfold jobs cb st Hjobs Hsel)
        as (counts & st' & mid & Hloop & Hrun & _).
      destruct (enrich_loop_further jobs cb (length (targets (heap st) 0 jobs))
                  (targets (heap st) 0 jobs) (targets_valid_ids (heap st) jobs)
                  0 (0, 0) st) as (counts2 & st2 & mid2 & Hloop2 & _ & Hheap).
      rewrite Hloop in Hloop2. injection Hloop2 as <- <- <-.
      by eexists st', _. }
  exists st', tr. split_and!; [done| |].
  - eapply Forall_impl; [exact Hjobs|]. intros l Hl. simpl in Hl.
    destruct (Hheap l) as [->|(d & _ & _ & ->)]; [done|].
    by apply posting_record_described.
  - intros i job_id (l & _ & Hl & Ht)%targets_elem. rewrite Nat.sub_0_r in Hl.
    destruct (Hheap l) as [Heq|(d & Hd & Hn & Heq)].
    + split; [|by exists l]. apply targets_elem. exists l.
      rewrite Nat.sub_0_r. split_and!; [lia|done|by rewrite <- Heq].
    + rewrite Heq, described_not_targeted in Ht by done. done.
Qed.

End BatchFurther.


Section BatchErrors.
Context `{HtmlParser} `{Environment}.


End BatchErrors.


Lemma fetch_descriptions_for_jobs_summary_witness :
  exists st' tr fetched_count failed_count,
    @fetch_descriptions_for_jobs Double.parser Double.down
      [0; 1; 2; 3] None (Double.start Double.down 0%Q)
    = (Ret [0; 1; 2; 3], st', tr)
    /\ head tr = Some (Log INFO "Fetching descriptions for 2 LinkedIn jobs...")
    /\ last tr = Some (Log INFO (summary fetched_count failed_count 2))
    /\ fetched_count + failed_count = 2.
Proof.
  apply (@fetch_descriptions_for_jobs_summary Double.parser Double.down
           [0; 1; 2; 3] None (Double.start Double.down 0%Q)).
  - repeat constructor; vm_compute; reflexivity.
  - vm_compute. discriminate.
Defined.

Lemma fetch_descriptions_for_jobs_requests_witness :
  exists st' tr,
    @fetch_descriptions_for_jobs Double.parser (Double.net 200 Double.page)
      [0; 1; 2; 3] None (Double.start (Double.net 200 Double.page) 0%Q)
    = (Ret [0; 1; 2; 3], st', tr)
    /\ http_gets tr
       = ["https://www.linkedin.com/jobs-guest/jobs/api/jobPosting/1234567890";
          "https://www.linkedin.com/jobs-guest/jobs/api/jobPosting/987"].
Proof.
  destruct (@fetch_descriptions_for_jobs_requests Double.parser
              (Double.net 200 Double.page) [0; 1; 2; 3] None
              (Double.start (Double.net 200 Double.page) 0%Q))
    as (st' & tr & Hrun & Hgets & _).
  { repeat constructor; vm_compute; reflexivity. }
  exists st', tr. split; [exact Hrun|]. rewrite Hgets. vm_compute. reflexivity.
Defined.

Lemma fetch_descriptions_for_jobs_rerun_witness :
  exists st' tr,
    @fetch_descriptions_for_jobs Double.parser (Double.net 200 Double.page)
      [0; 1; 2; 3] None (Double.start (Double.net 200 Double.page) 0%Q)
    = (Ret [0; 1; 2; 3], st', tr)
    /\ Forall (fun l => posting_record (heap st' l)) [0; 1; 2; 3].
Proof.
  destruct (@fetch_descriptions_for_jobs_rerun Double.parser
              (Double.net 200 Double.page) [0; 1; 2; 3] None
              (Double.start (Double.net 200 Double.page) 0%Q))
    as (st' & tr & Hrun & Hrecords & _).
  { repeat constructor; vm_compute; reflexivity. }
  exists st', tr. split; [exact Hrun|exact Hrecords].
Defined.

(** After a run that fetched every selected description, a second run
    selects nothing. *)
Example second_run_selects_nothing :
  let E := Double.net 200 Double.page in
  let run := @fetch_descriptions_for_jobs Double.parser E [0; 1; 2; 3] None
               (Double.start E 0%Q) in
  targets (heap (state_of run)) 0 [0; 1; 2; 3] = []
  /\ events_of (@fetch_descriptions_for_jobs Double.parser E [0; 1; 2; 3] None
                  (state_of run))
     = [Log INFO "No LinkedIn jobs need description fetching"].
Proof. split; vm_compute; reflexivity. Qed.
